(** * organise_files.py: classification table and folder organiser

    A shallow embedding of [src/organise_files.py], followed by the task
    list of [src/app.py] (its two functions and three views, with the two
    module globals as an explicit store).  The module-level code
    that builds [EXTENSION_TO_CATEGORY], then [get_category_for_file] and
    [organise_folder], are translated statement by statement; the file system
    the script works on is an explicit tree that the organiser threads
    through its loop, and everything it prints is kept as a list of lines.

    Conventions of the model
    - strings are ASCII strings; [str.lower()] and [str.strip()] are the
      ASCII ones;
    - [Path.suffix] is the one of CPython's pathlib up to 3.13
      ([name.rfind('.')], kept when [0 < i < len(name) - 1]);
    - a directory is an association list in enumeration order: [iterdir()]
      yields the entries in the order of the list;
    - a symbolic link is an entry of its own, holding the text of its
      target.  What the link resolves to is not part of the entry: each
      call that follows a link asks the environment ([resolves]), giving it
      the entries of the target directory at that moment and the place of
      the link, so a link can resolve differently once the run has moved
      files.  [rename] and [unlink] act on the link itself;
    - the model does not follow a run into a directory reached through a
      link: when the category folder is a symbolic link to a directory, the
      run ends in the model with the mark [ThroughLink], which is no
      exception of Python.  The theorems that speak of what such a run
      leaves behind exclude these directories by a hypothesis;
    - mkdir, unlink and rename behave as on POSIX: unlink removes files and
      links and raises on a directory, rename replaces a non-directory at
      the destination;
    - listing the directory, mkdir, unlink and rename can be refused by the
      environment (permissions, read-only or cross-device mounts); which
      calls are refused is the field [refuses] of the environment [E] of
      the run;
    - [print] raises when stdout does not take the line ([stdout_raises]):
      [UnicodeEncodeError] where the text cannot be encoded, an [OSError]
      where the stream is broken;
    - [is_dir()], [is_file()] and [exists()] do not raise: pathlib turns a
      failing [stat] into [False]. *)

From Stdlib Require Import Ascii String.
From stdpp Require Import gmap strings list.

Open Scope string_scope.
Open Scope list_scope.

Set Warnings "-register-all".

(** * Part I: the program *)

(** ** Strings: [str.lower], [str.rfind], slices *)

Definition lower_char (c : ascii) : ascii :=
  let n := nat_of_ascii c in
  if ((65 <=? n) && (n <=? 90))%nat then ascii_of_nat (n + 32) else c.

(** [s.lower()] *)
Fixpoint lower (s : string) : string :=
  match s with
  | EmptyString => EmptyString
  | String c r => String (lower_char c) (lower r)
  end.

(** [s.rfind(c)]: the index of the last [c] in [s]; Python's [-1] is [None]. *)
Fixpoint rfind (c : ascii) (s : string) : option nat :=
  match s with
  | EmptyString => None
  | String a r =>
      match rfind c r with
      | Some i => Some (S i)
      | None => if decide (a = c) then Some 0 else None
      end
  end.

(** [s[i:]] *)
Definition slice_from (i : nat) (s : string) : string :=
  substring i (String.length s - i) s.

(** [PurePath.suffix] applied to a path whose final component is [name]:
<<
    i = name.rfind('.')
    if 0 < i < len(name) - 1: return name[i:]
    else: return ''
>> *)
Definition suffix (name : string) : string :=
  match rfind "." name with
  | Some i =>
      if ((0 <? i) && (i <? String.length name - 1))%nat
      then slice_from i name else ""
  | None => ""
  end.

(** ** The category declarations (lines 19-38) *)

Definition images : list string :=
  [".png"; ".jpg"; ".jpeg"; ".gif"; ".bmp"; ".webp"; ".svg"; ".ico"; ".tiff"; ".tif"].
Definition videos : list string :=
  [".mp4"; ".avi"; ".mkv"; ".mov"; ".wmv"; ".flv"; ".webm"; ".m4v"; ".mpeg"; ".mpg"].
Definition documents : list string :=
  [".pdf"; ".doc"; ".docx"; ".xls"; ".xlsx"; ".ppt"; ".pptx"; ".txt"; ".rtf";
   ".odt"; ".ods"; ".odp"; ".csv"; ".md"; ".tex"].
Definition audio : list string :=
  [".mp3"; ".wav"; ".flac"; ".aac"; ".ogg"; ".wma"; ".m4a"; ".opus"].
Definition archives : list string :=
  [".zip"; ".rar"; ".7z"; ".tar"; ".gz"; ".bz2"; ".xz"; ".iso"].
Definition executables : list string :=
  [".exe"; ".msi"; ".bat"; ".cmd"; ".sh"; ".app"; ".dmg"].
Definition code : list string :=
  [".py"; ".js"; ".ts"; ".html"; ".css"; ".json"; ".xml"; ".yaml"; ".yml";
   ".java"; ".c"; ".cpp"; ".h"; ".cs"; ".go"; ".rs"; ".rb"; ".php"].

(** A configuration is what the dict literal [CATEGORIES] is: category
    names with their extension lists, in insertion order. *)
Abbreviation configuration := (list (string * list string)).

Definition CATEGORIES : configuration :=
  [ ("Images", images); ("Videos", videos); ("Documents", documents);
    ("Audio", audio); ("Archives", archives); ("Executables", executables);
    ("Code", code) ].

Definition OTHERS : string := "Others".

(** ** The Category Map Builder (lines 43-52) *)

(** [_ext_to_categories.setdefault(ext_lower, []).append(category_name)] *)
Definition setdefault_append (ext_lower category_name : string)
    (m : gmap string (list string)) : gmap string (list string) :=
  <[ext_lower := default [] (m !! ext_lower) ++ [category_name]]> m.

(** The inner loop [for ext in extensions]. *)
Definition record_category (category_name : string) (extensions : list string)
    (m : gmap string (list string)) : gmap string (list string) :=
  foldl (λ acc ext, setdefault_append (lower ext) category_name acc) m extensions.

(** The outer loop [for category_name, extensions in CATEGORIES.items()]. *)
Definition ext_to_categories (cfg : configuration) : gmap string (list string) :=
  foldl (λ acc entry, record_category entry.1 entry.2 acc) ∅ cfg.

(** [cats[0] if len(cats) == 1 else OTHERS] *)
Definition resolve_categories (cats : list string) : string :=
  match cats with
  | [c] => c
  | _ => OTHERS
  end.

(** The dict comprehension, for any configuration. *)
Definition build_table (cfg : configuration) : gmap string string :=
  resolve_categories <$> ext_to_categories cfg.

Definition EXTENSION_TO_CATEGORY : gmap string string := build_table CATEGORIES.

(** [get_category_for_file], on the base name of the path: the organiser
    only passes entries of [root.iterdir()]. *)
Definition get_category_for_file (name : string) : string :=
  let ext := lower (suffix name) in
  default OTHERS (EXTENSION_TO_CATEGORY !! ext).

(** ** The file system *)

(** What a directory entry is: a regular file with its content, a
    directory with its entries, or a symbolic link with the text of its
    target. *)
Inductive node : Type :=
| File (data : string)
| Dir (entries : list (string * node))
| Link (target : string).

Abbreviation entries := (list (string * node)).

(** What [os.stat] finds at the end of a path. *)
Inductive kind : Type := KFile | KDir.

(** The entry itself is a directory, a regular file, a symbolic link. *)
Definition is_dir (n : node) : bool :=
  match n with Dir _ => true | _ => false end.

Definition is_regular (n : node) : bool :=
  match n with File _ => true | _ => false end.

Definition is_link (n : node) : bool :=
  match n with Link _ => true | _ => false end.

(** The entries of a directory. *)
Definition listdir (n : node) : option entries :=
  match n with Dir es => Some es | _ => None end.

(** The same directory with new entries. *)
Definition with_entries (n : node) (es : entries) : node :=
  match n with
  | Dir _ => Dir es
  | _ => n
  end.

(** Look a name up in a directory. *)
Fixpoint get (k : string) (es : entries) : option node :=
  match es with
  | [] => None
  | (k', v) :: rest => if decide (k' = k) then Some v else get k rest
  end.

(** Replace the entry called [k], or add it at the end. *)
Fixpoint put (k : string) (v : node) (es : entries) : entries :=
  match es with
  | [] => [(k, v)]
  | (k', v') :: rest =>
      if decide (k' = k) then (k, v) :: rest else (k', v') :: put k v rest
  end.

(** Take the entry called [k] out. *)
Definition remove (k : string) (es : entries) : entries :=
  filter (λ kv, kv.1 ≠ k) es.

(** [root / category / name]: the entry two levels down, inside a
    directory [category]. *)
Definition get2 (category name : string) (es : entries) : option node :=
  d ← get category es ≫= listdir; get name d.

(** ** Errors, refusals and printed lines *)

(** Why the environment refuses a call. *)
Inductive errno : Type := EACCES | EPERM | EROFS | EXDEV | EIO | ENOSPC.

(** The exceptions of the script.  All but [UnicodeEncodeError] are
    [OSError]s in Python.  [ThroughLink] is no exception: it marks a run
    that goes on inside a directory reached through a symbolic link, where
    the model stops. *)
Inductive exn : Type :=
| NotADirectoryError
| FileExistsError
| IsADirectoryError
| FileNotFoundError
| OSError (e : errno)
| UnicodeEncodeError
| ThroughLink.

(** The calls the environment can refuse, with the names they are made
    on. *)
Inductive syscall : Type :=
| Listdir
| Mkdir (category : string)
| Unlink (category name : string)
| Rename (name category : string).

Inductive result (A : Type) : Type :=
| Ok (a : A)
| Raise (e : exn).
Arguments Ok {A} a.
Arguments Raise {A} e.

(** One printed line. *)
Inductive line : Type :=
| NoFiles                                   (* No files to organise in: ... *)
| DryRunBanner                              (* [DRY RUN] No changes will be made. *)
| Preview (name category : string)          (*   name  ->  category/ *)
| SkipExists (name category : string)       (* Skip (exists): name -> category/ *)
| Move (name category : string)             (* Move: name -> category/ *)
| ErrorMoving (name : string) (e : exn)     (* Error moving name: e *)
| Done.                                     (* Done. Files organised under: ... *)

(** The file a line is about. *)
Definition subject (l : line) : option string :=
  match l with
  | Preview n _ | SkipExists n _ | Move n _ | ErrorMoving n _ => Some n
  | NoFiles | DryRunBanner | Done => None
  end.

(** Why [print] fails: the text cannot be encoded for stdout, or writing
    to the stream fails. *)
Inductive print_fault : Type :=
| Unencodable
| Broken (e : errno).

Definition exn_of (f : print_fault) : exn :=
  match f with
  | Unencodable => UnicodeEncodeError
  | Broken e => OSError e
  end.

(** The environment of a run: the calls it refuses, and why; what a
    symbolic link resolves to, given the entries of the target directory
    at the time of the call, the path of the link below the target
    directory and the text of the link ([None]: to nothing); the lines
    stdout does not take. *)
Record environment : Type :=
  { refuses : syscall → option errno;
    resolves : entries → list string → string → option kind;
    stdout_raises : line → option print_fault }.

(** Nothing is refused, every line is printed, every link dangles. *)
Definition no_faults : environment :=
  {| refuses := λ _, None;
     resolves := λ _ _ _, None;
     stdout_raises := λ _, None |}.

(** ** The system calls *)

(** [os.stat] on the entry [v] found at [path]: it follows a link. *)
Definition stat (E : environment) (es : entries) (path : list string)
    (v : node) : option kind :=
  match v with
  | File _ => Some KFile
  | Dir _ => Some KDir
  | Link target => resolves E es path target
  end.

(** [(root / name).is_file()] for the entry [v] called [name]. *)
Definition is_file (E : environment) (es : entries) (name : string)
    (v : node) : bool :=
  match stat E es [name] v with Some KFile => true | _ => false end.

(** [[f for f in root.iterdir() if f.is_file()]], as names. *)
Definition regular_files (E : environment) (es : entries) : list string :=
  (filter (λ kv, is_file E es kv.1 kv.2 = true) es).*1.

(** [(root / category / name).exists()], inside a directory [category]. *)
Definition dest_exists (E : environment) (category name : string)
    (es : entries) : bool :=
  match get2 category name es with
  | Some v =>
      match stat E es [category; name] v with Some _ => true | None => false end
  | None => false
  end.

(** [target_dir.mkdir(exist_ok=True)]: nothing to do on a directory,
    [FileExistsError] on anything else of that name.  On a link,
    [is_dir()] follows it; through a link to a directory the model does
    not go. *)
Definition mkdir_exist_ok (E : environment) (category : string) (es : entries)
    : result entries :=
  match get category es with
  | Some (Dir _) => Ok es
  | Some (File _) => Raise FileExistsError
  | Some (Link target) =>
      match resolves E es [category] target with
      | Some KDir => Raise ThroughLink
      | _ => Raise FileExistsError
      end
  | None =>
      match refuses E (Mkdir category) with
      | Some e => Raise (OSError e)
      | None => Ok (put category (Dir []) es)
      end
  end.

(** [dest.unlink()]: removes a file or a link, not a directory. *)
Definition unlink (E : environment) (category name : string) (es : entries)
    : result entries :=
  match get category es with
  | Some dn =>
      match listdir dn with
      | Some d =>
          match get name d with
          | Some (Dir _) => Raise IsADirectoryError
          | Some _ =>
              match refuses E (Unlink category name) with
              | Some e => Raise (OSError e)
              | None => Ok (put category (with_entries dn (remove name d)) es)
              end
          | None => Raise FileNotFoundError
          end
      | None => Raise NotADirectoryError
      end
  | None => Raise FileNotFoundError
  end.

(** [filepath.rename(dest)] with [dest = root / category / name]: the
    entry leaves the root and takes the place of whatever non-directory
    was at [dest] (POSIX rename). *)
Definition rename (E : environment) (name category : string) (es : entries)
    : result entries :=
  match refuses E (Rename name category) with
  | Some e => Raise (OSError e)
  | None =>
      match get name es with
      | None => Raise FileNotFoundError
      | Some src =>
          match get category es with
          | Some dn =>
              match listdir dn with
              | Some d =>
                  match get name d with
                  | Some (Dir _) => Raise IsADirectoryError
                  | _ =>
                      Ok (put category (with_entries dn (put name src d))
                            (remove name es))
                  end
              | None => Raise NotADirectoryError
              end
          | None => Raise FileNotFoundError
          end
      end
  end.

(** ** The organiser (lines 61-121) *)

(** What the loop carries: the entries of [root] and the lines printed. *)
Record state : Type := { tree : entries; out : list line }.

(** The line is on stdout. *)
Definition print (l : line) (st : state) : state :=
  {| tree := tree st; out := out st ++ [l] |}.

Definition set_tree (es : entries) (st : state) : state :=
  {| tree := es; out := out st |}.

(** [print(l)]: the line is printed, or the call raises and prints
    nothing. *)
Definition say (E : environment) (l : line) (st : state) : state * option exn :=
  match stdout_raises E l with
  | Some fault => (st, Some (exn_of fault))
  | None => (print l st, None)
  end.

(** The body of [for filepath in all_files] (lines 95-118).  It returns
    the state it leaves and the exception that leaves the loop, if any.
    The [try] of lines 114-118 covers [rename] and the [print] after it;
    its handler catches [OSError] only. *)
Definition organise_file (E : environment) (dry_run skip_existing : bool)
    (name : string) (st : state) : state * option exn :=
  let category := get_category_for_file name in
  if dry_run then say E (Preview name category) st
  else
    match mkdir_exist_ok E category (tree st) with
    | Raise e => (st, Some e)
    | Ok es1 =>
        let st1 := set_tree es1 st in
        if dest_exists E category name es1 && skip_existing
        then say E (SkipExists name category) st1
        else
          match (if dest_exists E category name es1
                 then unlink E category name es1 else Ok es1) with
          | Raise e => (st1, Some e)
          | Ok es2 =>
              let st2 := set_tree es2 st in
              match rename E name category es2 with
              | Ok es3 =>
                  let st3 := set_tree es3 st in
                  match stdout_raises E (Move name category) with
                  | None => (print (Move name category) st3, None)
                  | Some (Broken e) =>
                      say E (ErrorMoving name (OSError e)) st3
                  | Some Unencodable => (st3, Some UnicodeEncodeError)
                  end
              | Raise e => say E (ErrorMoving name e) st2
              end
          end
    end.

(** The loop. *)
Fixpoint organise_files (E : environment) (dry_run skip_existing : bool)
    (all_files : list string) (st : state) : state * option exn :=
  match all_files with
  | [] => (st, None)
  | filepath :: rest =>
      match organise_file E dry_run skip_existing filepath st with
      | (st', None) => organise_files E dry_run skip_existing rest st'
      | (st', Some e) => (st', Some e)
      end
  end.

(** What a call of [organise_folder] leaves behind: what the target path
    names afterwards, the lines printed, and the exception raised, if any. *)
Record outcome : Type :=
  { final : option node; printed : list line; raised : option exn }.

(** [root.is_dir()], where the argument is what the resolved path [root]
    names ([None] when nothing is there). *)
Definition path_is_dir (target : option node) : bool :=
  from_option is_dir false target.

(** The entries [root.iterdir()] yields. *)
Definition iterdir (target : option node) : entries :=
  default [] (target ≫= listdir).

(** One statement after another: the second runs when the first has not
    raised. *)
Definition and_then (x : state * option exn)
    (k : state → state * option exn) : state * option exn :=
  match x with
  | (st, None) => k st
  | (st, Some e) => (st, Some e)
  end.

(** [organise_folder(folder_path, dry_run=..., skip_existing=...)], where
    [target] is what [Path(folder_path).resolve()] names. *)
Definition organise_folder (E : environment) (target : option node)
    (dry_run skip_existing : bool) : outcome :=
  if negb (path_is_dir target)
  then {| final := target; printed := []; raised := Some NotADirectoryError |}
  else
    match refuses E Listdir with
    | Some e => {| final := target; printed := []; raised := Some (OSError e) |}
    | None =>
        let all_files := regular_files E (iterdir target) in
        let st0 := {| tree := iterdir target; out := [] |} in
        let '(st, r) :=
          match all_files with
          | [] => say E NoFiles st0
          | _ =>
              and_then (if dry_run then say E DryRunBanner st0 else (st0, None))
                (λ st1,
                   and_then (organise_files E dry_run skip_existing all_files st1)
                     (λ st2, if dry_run then (st2, None) else say E Done st2))
          end in
        {| final := (λ root, with_entries root (tree st)) <$> target;
           printed := out st;
           raised := r |}
    end.

(** ** The command line (lines 124-150) *)



(** ** The task list of [app.py] *)

(** One task: the dict [{"id": ..., "text": ..., "completed": ...}]. *)
Record task : Type :=
  { task_id : nat; task_text : string; task_completed : bool }.

(** The two module globals, [tasks] and [_next_id]. *)
Record store : Type := { tasks : list task; next_id : nat }.

(** The globals when the module is loaded. *)
Definition initial : store := {| tasks := []; next_id := 1 |}.

(** [add_task(text)] (lines 10-16): the returned id and the new globals. *)
Definition add_task (text : string) (s : store) : nat * store :=
  let new_id := next_id s in
  (new_id,
   {| tasks := tasks s ++ [{| task_id := new_id; task_text := text;
                              task_completed := false |}];
      next_id := next_id s + 1 |}).

(** [task["completed"] = True] *)
Definition mark (t : task) : task :=
  {| task_id := task_id t; task_text := task_text t; task_completed := true |}.

(** The loop of [complete_task] (lines 21-25): the first task with the id
    is marked and the loop returns [True]; [False] when it runs out. *)
Fixpoint complete_in (id : nat) (ts : list task) : bool * list task :=
  match ts with
  | [] => (false, [])
  | t :: rest =>
      if (task_id t =? id)%nat then (true, mark t :: rest)
      else let '(found, rest') := complete_in id rest in (found, t :: rest')
  end.

(** [complete_task(id)] *)
Definition complete_task (id : nat) (s : store) : bool * store :=
  let '(found, ts) := complete_in id (tasks s) in
  (found, {| tasks := ts; next_id := next_id s |}).

(** [c.isspace()] for an ASCII character: tab to carriage return, the four
    separators 28-31, and the space. *)
Definition is_space (c : ascii) : bool :=
  let n := nat_of_ascii c in
  (((9 <=? n) && (n <=? 13)) || ((28 <=? n) && (n <=? 32)))%nat.

(** [s.lstrip()], [s.rstrip()], [s.strip()] *)
Fixpoint lstrip (s : string) : string :=
  match s with
  | EmptyString => EmptyString
  | String c r => if is_space c then lstrip r else s
  end.

Fixpoint rstrip (s : string) : string :=
  match s with
  | EmptyString => EmptyString
  | String c r =>
      match rstrip r with
      | EmptyString => if is_space c then EmptyString else String c EmptyString
      | r' => String c r'
      end
  end.

Definition strip (s : string) : string := rstrip (lstrip s).

(** The view [add()] (lines 33-38), where [form_text] is the form field
    ["text"] if the request has one; the answer is always the redirect to
    the index, so only the globals are kept. *)
Definition add (form_text : option string) (s : store) : store :=
  let text := strip (default "" form_text) in
  if decide (text = "") then s else (add_task text s).2.

(** The view [complete(task_id)] (lines 41-44). *)
Definition complete (id : nat) (s : store) : store := (complete_task id s).2.

(** A request to one of the three routes. *)
Inductive request : Type :=
| GetIndex
| PostAdd (form_text : option string)
| PostComplete (id : nat).

(** What a request does to the globals; [index()] only renders them. *)
Definition handle (s : store) (r : request) : store :=
  match r with
  | GetIndex => s
  | PostAdd form_text => add form_text s
  | PostComplete id => complete id s
  end.

(** The globals after a sequence of requests to a fresh application. *)
Definition serve (rs : list request) : store := foldl handle initial rs.

(** * Part II: the words of the specification and of the proofs *)

(** *** What the specification says, in its own words *)

(** The categories that claim [ext]: those that list it, up to case. *)
Definition claims_ext (ext : string) (entry : string * list string) : Prop :=
  ext ∈ lower <$> entry.2.

#[global] Instance claims_ext_dec ext entry : Decision (claims_ext ext entry).
Proof. unfold claims_ext. apply _. Defined.

Definition claimers (cfg : configuration) (ext : string) : list string :=
  (filter (claims_ext ext) cfg).*1.

(** The specification's rule for the table: an extension that exactly one
    category claims maps to that category, and an extension that more
    than one category claims maps to the fallback. *)
Definition maps_by_claimers (cfg : configuration) (ext : string) : Prop :=
  (∀ c, claimers cfg ext = [c] → build_table cfg !! ext = Some c) ∧
  (1 < length (claimers cfg ext) → build_table cfg !! ext = Some OTHERS).

(** The extension in the specification's words: the part of the name from
    its last dot on, empty when the name has no dot. *)
Definition ext_after_last_dot (name : string) : string :=
  match rfind "." name with
  | Some i => slice_from i name
  | None => ""
  end.

(** The specification's sentence on the extension: the category of a name
    is looked up under the text from its last dot on. *)
Definition uses_text_after_last_dot (name : string) : Prop :=
  suffix name = ext_after_last_dot name ∧
  get_category_for_file name =
    default OTHERS (EXTENSION_TO_CATEGORY !! lower (ext_after_last_dot name)).

(** The entry is a symbolic link or a directory. *)
Definition is_symlink_or_dir (v : node) : bool :=
  match v with File _ => false | _ => true end.

(** The entry called [k] of the target directory after the call. *)
Definition final_entry (o : outcome) (k : string) : option node :=
  d ← final o ≫= listdir; get k d.

(** The entry [category/name] of the target directory after the call. *)
Definition final_dest (o : outcome) (category name : string) : option node :=
  d ← final o ≫= listdir; get2 category name d.

(** The specification's sentence on what the organiser leaves out: every
    symbolic link and every directory among the immediate children is
    neither reported nor changed. *)
Definition links_and_dirs_left_alone (E : environment) (es : entries)
    (dry skip : bool) : Prop :=
  ∀ k v, get k es = Some v → is_symlink_or_dir v = true →
    let o := organise_folder E (Some (Dir es)) dry skip in
    (∀ l, l ∈ printed o → subject l ≠ Some k) ∧
    final_entry o k = Some v.

(** The specification's sentence on a second run: what the target names
    after two live runs with [skip_existing=True] is what it names after
    one. *)
Definition second_run_changes_nothing (E : environment)
    (target : option node) : Prop :=
  let once := organise_folder E target false true in
  let twice := organise_folder E (final once) false true in
  final twice = final once.



(** ** Vocabulary of the proofs *)

(** One copy of the category name per time the category lists [ext]. *)
Definition occurrences (category_name : string) (extensions : list string)
    (ext : string) : list string :=
  (λ _, category_name) <$> filter (λ x, lower x = ext) extensions.

(** All declarations of [ext], in the order the loops meet them. *)
Definition declarations (cfg : configuration) (ext : string) : list string :=
  cfg ≫= (λ entry, occurrences entry.1 entry.2 ext).

(** What appending [l] does to a dict slot. *)
Definition grow (slot : option (list string)) (l : list string) : option (list string) :=
  match l with
  | [] => slot
  | _ => Some (default [] slot ++ l)
  end.

(** The folders the organiser can name. *)
Definition folder_names : list string := OTHERS :: CATEGORIES.*1.

(** [name] is an entry of the directory, and not a directory: a regular
    file or a symbolic link. *)
Definition file_at (name : string) (es : entries) : Prop :=
  ∃ v, get name es = Some v ∧ is_dir v = false.

(** Before the move: the folder [c] is made, or what is at [c/f] is
    unlinked, or nothing happens. *)
Inductive prepares (c f : string) : entries → entries → Prop :=
| prepares_nothing es : prepares c f es es
| prepares_mkdir es :
    get c es = None → prepares c f es (put c (Dir []) es)
| prepares_unlink es dn d :
    get c es = Some dn → listdir dn = Some d →
    prepares c f es (put c (with_entries dn (remove f d)) es).

(** The move itself: [f] leaves the root for [c/f]. *)
Inductive moves (c f : string) : entries → entries → Prop :=
| moves_intro es src dn d :
    get f es = Some src → get c es = Some dn → listdir dn = Some d →
    moves c f es (put c (with_entries dn (put f src d)) (remove f es)).

(** How an entry of the root may differ after work on folder [c]: not at
    all, or, if it is the folder [c] itself, in what it holds. *)
Definition kept (c k : string) (v v' : node) : Prop :=
  v' = v ∨ (k = c ∧ is_dir v = true ∧ ∃ d, v' = with_entries v d).

(** Nothing but a directory is called [k]. *)
Definition no_file_at (k : string) (es : entries) : Prop :=
  ∀ v, get k es = Some v → is_dir v = true.

(** Every name of the list is a file or a link of the directory. *)
Definition listed (fs : list string) (es : entries) : Prop :=
  ∀ f, f ∈ fs → file_at f es.

(** How an entry of the root may differ after a run: not at all, or, if
    it is a directory with the name of a category folder, in what it holds. *)
Definition kept_by_run (k : string) (v v' : node) : Prop :=
  v' = v ∨ (k ∈ folder_names ∧ is_dir v = true ∧ ∃ d, v' = with_entries v d).

(** What a folder [k] that held [d] holds after a run over [es]: entries
    it held before, and entries of [es] that the run has classified into
    it. *)
Definition filled_from (E : environment) (es : entries) (k : string)
    (d d' : entries) : Prop :=
  ∀ n w, get n d' = Some w →
    get n d = Some w ∨
    (n ∈ regular_files E es ∧ get_category_for_file n = k ∧ get n es = Some w).

(** ** Directories without symbolic links *)

(** No entry of the directory is a symbolic link. *)
Definition no_links (d : entries) : bool :=
  forallb (λ kv, negb (is_link kv.2)) d.

(** Neither the directory nor its subdirectories hold a symbolic link:
    the entries that a run looks at are files and directories. *)
Definition plain (es : entries) : bool :=
  forallb (λ kv, match kv.2 with
                 | File _ => true
                 | Dir d => no_links d
                 | Link _ => false
                 end) es.

(** No symbolic link of the directory has the name of a category folder:
    no run goes through a link. *)
Definition no_linked_folder (es : entries) : Prop :=
  Forall (λ kv, is_link kv.2 = true → kv.1 ∉ folder_names) es.

(** The regular files of a directory, links left out. *)
Definition files_of (es : entries) : list string :=
  (filter (λ kv, is_regular kv.2) es).*1.

(** Stdout takes every line. *)
Definition prints_all (E : environment) : Prop :=
  ∀ l, stdout_raises E l = None.

(** ** Vocabulary of the second run and of the leftovers *)

(** With [skip_existing=True], a file on which the loop body has nothing
    left to do: its folder is there, and either there is something at its
    destination or the environment refuses its move. *)
Definition quiet (E : environment) (f : string) (es : entries) : Prop :=
  (∃ dn, get (get_category_for_file f) es = Some dn ∧ is_dir dn = true) ∧
  (is_Some (get2 (get_category_for_file f) f es) ∨
   is_Some (refuses E (Rename f (get_category_for_file f)))).

(** What the first run leaves: a list of quiet files, followed, if the run
    has raised, by the file that raised and raises again. *)
Definition settled (E : environment) (es : entries) (r : option exn) : Prop :=
  ∃ kept rest,
    files_of es = kept ++ rest ∧
    (∀ g, g ∈ kept → quiet E g es) ∧
    match r with
    | None => rest = []
    | Some e =>
        ∃ h tl, rest = h :: tl ∧
          ∀ st2, tree st2 = es → organise_file E false true h st2 = (st2, Some e)
    end.

(** The files that a live run with [skip_existing] leaves in the target
    directory: those whose destination exists, and those whose move the
    environment refuses. *)
Definition stays (E : environment) (es : entries) (f : string) : bool :=
  dest_exists E (get_category_for_file f) f es
  || bool_decide (is_Some (refuses E (Rename f (get_category_for_file f)))).

(** ** Vocabulary of the task list *)

(** The ids of the tasks are below the next id. *)
Definition ids_below (s : store) : Prop :=
  Forall (λ t, task_id t < next_id s) (tasks s).

(** A later list keeps the tasks of an earlier one: same place, id and
    text, and done stays done. *)
Definition keeps (ts ts' : list task) : Prop :=
  ∀ i t, ts !! i = Some t →
    ∃ t', ts' !! i = Some t' ∧ task_id t' = task_id t ∧
      task_text t' = task_text t ∧
      (task_completed t = true → task_completed t' = true).

(** The text of a stored task: not empty, nothing left to strip. *)
Definition clean (t : task) : Prop :=
  task_text t ≠ "" ∧ strip (task_text t) = task_text t.


(** ** Environments of the examples *)

(** Every symbolic link resolves to a regular file, which lies outside
    the target directory; nothing is refused, every line is printed. *)
Definition links_to_files : environment :=
  {| refuses := λ _, None;
     resolves := λ _ _ _, Some KFile;
     stdout_raises := λ _, None |}.

(** What a link with the text [../name], found inside a folder of the
    target directory, resolves to: the entry [name] of the target
    directory. *)
Definition resolve_up (es : entries) (path : list string) (target : string)
    : option kind :=
  match path, target with
  | [_; _], String "." (String "." (String "/" name)) =>
      match get name es with
      | Some (File _) => Some KFile
      | Some (Dir _) => Some KDir
      | _ => None
      end
  | _, _ => None
  end.

Definition relative_links : environment :=
  {| refuses := λ _, None;
     resolves := resolve_up;
     stdout_raises := λ _, None |}.

(** A stdout that cannot encode the arrow of the preview, skip and move
    lines (lines 100, 107 and 116), as with an ASCII stdout. *)
Definition ascii_stdout : environment :=
  {| refuses := λ _, None;
     resolves := λ _ _ _, None;
     stdout_raises := λ l,
       match l with
       | Preview _ _ | SkipExists _ _ | Move _ _ => Some Unencodable
       | _ => None
       end |}.

(** * Part III: lemmas *)

(** ** Facts about the strings *)

Section strings.

Lemma length_app_string (s t : string) :
  String.length (s +:+ t) = String.length s + String.length t.
Proof. induction s as [|a s IH]; simpl; [done | by rewrite IH]. Qed.

Lemma substring_all (s : string) : substring 0 (String.length s) s = s.
Proof. induction s as [|a s IH]; simpl; [done | by rewrite IH]. Qed.

Lemma slice_from_app (pre s : string) :
  slice_from (String.length pre) (pre +:+ s) = s.
Proof.
  unfold slice_from. rewrite length_app_string.
  replace (String.length pre + String.length s - String.length pre)
    with (String.length s) by lia.
  induction pre as [|a pre IH]; simpl; [apply substring_all | exact IH].
Qed.

Lemma rfind_dot_cons (ext : string) :
  rfind "." ext = None → rfind "." (String "." ext) = Some 0.
Proof. intros H. simpl. by rewrite H. Qed.

Lemma rfind_app_dot (pre ext : string) :
  rfind "." ext = None →
  rfind "." (pre +:+ String "." ext) = Some (String.length pre).
Proof.
  intros H. induction pre as [|a pre IH]; simpl.
  - by rewrite H.
  - by rewrite IH.
Qed.

Lemma suffix_no_dot (name : string) : rfind "." name = None → suffix name = "".
Proof. unfold suffix. by intros ->. Qed.

Lemma suffix_leading_dot (rest : string) :
  rfind "." rest = None → suffix (String "." rest) = "".
Proof. intros H. unfold suffix. by rewrite (rfind_dot_cons _ H). Qed.

Lemma suffix_inner_dot (pre ext : string) :
  pre ≠ "" → ext ≠ "" → rfind "." ext = None →
  suffix (pre +:+ String "." ext) = String "." ext.
Proof.
  intros Hpre Hext Hdot. unfold suffix. rewrite (rfind_app_dot _ _ Hdot).
  rewrite length_app_string. simpl String.length.
  assert (0 < String.length pre) by (destruct pre; [done | simpl; lia]).
  assert (0 < String.length ext) by (destruct ext; [done | simpl; lia]).
  case_match eqn:Hc.
  - apply slice_from_app.
  - apply andb_false_iff in Hc as [Hc | Hc].
    + apply Nat.ltb_ge in Hc. lia.
    + apply Nat.ltb_ge in Hc. lia.
Qed.

End strings.

(** ** Facts about the table *)

Section table.

Implicit Types (m : gmap string (list string)) (cfg : configuration).

Lemma grow_app slot l1 l2 : grow (grow slot l1) l2 = grow slot (l1 ++ l2).
Proof.
  destruct l1 as [|a l1], l2 as [|b l2]; simpl; try done.
  - by rewrite app_nil_r.
  - by rewrite <- app_assoc.
Qed.

Lemma setdefault_append_lookup e c m ext :
  setdefault_append e c m !! ext = grow (m !! ext) (if decide (e = ext) then [c] else []).
Proof.
  unfold setdefault_append. case_decide as He.
  - subst. by rewrite lookup_insert_eq.
  - by rewrite lookup_insert_ne.
Qed.

Lemma record_category_lookup c exts m ext :
  record_category c exts m !! ext = grow (m !! ext) (occurrences c exts ext).
Proof.
  unfold record_category, occurrences. revert m.
  induction exts as [|x exts IH]; intros m; simpl; [done|].
  rewrite IH, setdefault_append_lookup, grow_app. f_equal.
  rewrite filter_cons. by case_decide.
Qed.

Lemma ext_to_categories_lookup cfg ext :
  ext_to_categories cfg !! ext = grow None (declarations cfg ext).
Proof.
  unfold ext_to_categories, declarations.
  assert (∀ m, foldl (λ acc entry, record_category entry.1 entry.2 acc) m cfg !! ext
             = grow (m !! ext) (cfg ≫= (λ entry, occurrences entry.1 entry.2 ext))) as Hgen.
  { induction cfg as [|[c exts] cfg IH]; intros m; simpl; [done|].
    rewrite IH, record_category_lookup, grow_app. done. }
  by rewrite Hgen, lookup_empty.
Qed.

(** The table, for any configuration: an extension nobody declares is
    absent; one declared once maps to its category; one declared more
    often maps to ["Others"]. *)
Lemma build_table_lookup cfg ext :
  build_table cfg !! ext =
    match declarations cfg ext with
    | [] => None
    | cats => Some (resolve_categories cats)
    end.
Proof.
  unfold build_table. rewrite lookup_fmap, ext_to_categories_lookup.
  by destruct (declarations cfg ext).
Qed.

(** Where no category lists an extension twice (up to case), the
    declarations of an extension are the categories that claim it. *)
Lemma occurrences_NoDup c exts ext :
  NoDup (lower <$> exts) →
  occurrences c exts ext = if decide (ext ∈ lower <$> exts) then [c] else [].
Proof.
  unfold occurrences. induction exts as [|x exts IH]; intros Hnd; [done|].
  rewrite fmap_cons in Hnd. apply NoDup_cons in Hnd as [Hx Hnd].
  rewrite filter_cons, fmap_cons. specialize (IH Hnd).
  destruct (decide (lower x = ext)) as [<-|Hne].
  - rewrite fmap_cons, IH. rewrite (decide_False (P := lower x ∈ lower <$> exts)) by done.
    rewrite decide_True by constructor. done.
  - rewrite IH. repeat case_decide; try done.
    + exfalso. match goal with H : ¬ _ ∈ _ :: _ |- _ => apply H end. by constructor.
    + exfalso. match goal with H : _ ∈ _ :: _ |- _ => apply elem_of_cons in H as [?|?] end; congruence.
Qed.

Lemma declarations_claimers cfg ext :
  Forall (λ entry, NoDup (lower <$> entry.2)) cfg →
  declarations cfg ext = claimers cfg ext.
Proof.
  unfold declarations, claimers. induction 1 as [|[c exts] cfg Hnd _ IH]; [done|].
  simpl in Hnd. rewrite bind_cons, filter_cons, IH. simpl.
  rewrite (occurrences_NoDup _ _ _ Hnd). unfold claims_ext. simpl.
  repeat case_decide; done.
Qed.

(** The builder does what the specification says on every configuration in
    which no category lists the same extension twice. *)
Lemma build_table_claimers cfg ext :
  Forall (λ entry, NoDup (lower <$> entry.2)) cfg →
  (∀ c, claimers cfg ext = [c] → build_table cfg !! ext = Some c) ∧
  (1 < length (claimers cfg ext) → build_table cfg !! ext = Some OTHERS) ∧
  (claimers cfg ext = [] → build_table cfg !! ext = None).
Proof.
  intros Hnd. rewrite build_table_lookup, (declarations_claimers _ _ Hnd).
  split; [|split].
  - by intros c ->.
  - destruct (claimers cfg ext) as [|a [|b l]]; simpl; [lia | lia | done].
  - by intros ->.
Qed.

Lemma CATEGORIES_no_repeats : Forall (λ entry, NoDup (lower <$> entry.2)) CATEGORIES.
Proof.
  apply (bool_decide_unpack _). by vm_compute.
Qed.

End table.

(** ** Classification of a name *)

Section classification.

Lemma table_no_empty_ext : EXTENSION_TO_CATEGORY !! "" = None.
Proof. by vm_compute. Qed.

Lemma category_of_empty_suffix (name : string) :
  suffix name = "" → get_category_for_file name = OTHERS.
Proof.
  intros H. unfold get_category_for_file. rewrite H. simpl lower.
  by rewrite table_no_empty_ext.
Qed.

Lemma category_of_unknown_suffix (name : string) :
  EXTENSION_TO_CATEGORY !! lower (suffix name) = None →
  get_category_for_file name = OTHERS.
Proof. intros H. unfold get_category_for_file. by rewrite H. Qed.

(** The shipped table follows the rule of the specification. *)
Lemma EXTENSION_TO_CATEGORY_claimers (ext : string) :
  (∀ c, claimers CATEGORIES ext = [c] → EXTENSION_TO_CATEGORY !! ext = Some c) ∧
  (1 < length (claimers CATEGORIES ext) → EXTENSION_TO_CATEGORY !! ext = Some OTHERS) ∧
  (claimers CATEGORIES ext = [] → EXTENSION_TO_CATEGORY !! ext = None).
Proof. apply build_table_claimers, CATEGORIES_no_repeats. Qed.

Example category_png : get_category_for_file "holiday.PNG" = "Images".
Proof. by vm_compute. Qed.

Example category_tar_gz : get_category_for_file "backup.tar.gz" = "Archives".
Proof. by vm_compute. Qed.

Example category_ini : get_category_for_file "c.ini" = "Others".
Proof. by vm_compute. Qed.

Example category_makefile : get_category_for_file "Makefile" = "Others".
Proof. by vm_compute. Qed.

End classification.

(** ** Directories as association lists *)

Section directories.

Implicit Types (k : string) (v : node) (es d : entries).

Lemma get_put_eq k v es : get k (put k v es) = Some v.
Proof.
  induction es as [|[k' v'] es IH]; simpl.
  - by rewrite decide_True.
  - case_decide; simpl.
    + by rewrite decide_True.
    + by rewrite decide_False.
Qed.

Lemma get_put_ne k k' v es : k ≠ k' → get k' (put k v es) = get k' es.
Proof.
  intros Hne. induction es as [|[k0 v0] es IH]; simpl.
  - by rewrite decide_False.
  - case_decide; simpl.
    + subst. by rewrite !decide_False.
    + by rewrite IH.
Qed.

Lemma get_remove_eq k es : get k (remove k es) = None.
Proof.
  unfold remove. induction es as [|[k' v'] es IH]; [done|].
  rewrite filter_cons. simpl. case_decide; simpl; [|done].
  by rewrite decide_False.
Qed.

Lemma get_remove_ne k k' es : k ≠ k' → get k' (remove k es) = get k' es.
Proof.
  intros Hne. unfold remove. induction es as [|[k0 v0] es IH]; [done|].
  rewrite filter_cons. simpl. case_decide as Hd; simpl.
  - by rewrite IH.
  - rewrite IH. rewrite decide_False; [done|]. congruence.
Qed.

Lemma get_Some_elem_of k v es : get k es = Some v → (k, v) ∈ es.
Proof.
  induction es as [|[k' v'] es IH]; simpl; [done|].
  case_decide.
  - intros [= ->]. subst. constructor.
  - intros. constructor. auto.
Qed.

Lemma get_None_keys k es : get k es = None ↔ k ∉ es.*1.
Proof.
  induction es as [|[k' v'] es IH]; simpl.
  - split; [intros _; apply not_elem_of_nil | done].
  - rewrite not_elem_of_cons. case_decide; split; try done.
    + intros [? _]. congruence.
    + intros. split; [congruence | by apply IH].
    + intros [_ ?]. by apply IH.
Qed.

Lemma elem_of_get k v es : NoDup es.*1 → (k, v) ∈ es → get k es = Some v.
Proof.
  induction es as [|[k' v'] es IH]; simpl; intros Hnd Hin.
  - by apply elem_of_nil in Hin.
  - apply NoDup_cons in Hnd as [Hk Hnd].
    apply elem_of_cons in Hin as [[= <- <-]|Hin].
    + by rewrite decide_True.
    + rewrite decide_False; [by apply IH|].
      intros ->. apply Hk. apply list_elem_of_fmap. by exists (k, v).
Qed.

Lemma keys_put k v es :
  (put k v es).*1 = if decide (k ∈ es.*1) then es.*1 else es.*1 ++ [k].
Proof.
  induction es as [|[k' v'] es IH]; csimpl; [done|].
  destruct (decide (k' = k)) as [->|Hne]; csimpl.
  - rewrite decide_True by constructor. done.
  - rewrite IH. destruct (decide (k ∈ es.*1)) as [Hin|Hin].
    + rewrite decide_True by (by constructor). done.
    + rewrite decide_False; [done|]. rewrite not_elem_of_cons. split; [congruence|done].
Qed.

Lemma NoDup_keys_put k v es : NoDup es.*1 → NoDup (put k v es).*1.
Proof.
  intros Hnd. rewrite keys_put. case_decide; [done|].
  apply NoDup_app. split; [done|]. split; [|apply NoDup_singleton].
  intros x Hx Hx'. apply list_elem_of_singleton in Hx'. by subst.
Qed.

Lemma NoDup_keys_filter (P : string * node → Prop) `{!∀ kv, Decision (P kv)} es :
  NoDup es.*1 → NoDup (filter P es).*1.
Proof.
  induction es as [|[k' v'] es IH]; [done|].
  simpl. intros [Hk Hnd]%NoDup_cons. rewrite filter_cons.
  case_decide; [|by apply IH]. simpl. apply NoDup_cons. split; [|by apply IH].
  intros Hin. apply Hk. apply list_elem_of_fmap in Hin as [[k0 v0] [-> Hin]].
  apply list_elem_of_filter in Hin as [_ Hin].
  apply list_elem_of_fmap. by exists (k0, v0).
Qed.

Lemma NoDup_keys_remove k es : NoDup es.*1 → NoDup (remove k es).*1.
Proof. apply NoDup_keys_filter. Qed.

Lemma filter_agree (P Q : string * node → Prop)
    `{!∀ kv, Decision (P kv)} `{!∀ kv, Decision (Q kv)} es :
  (∀ kv, kv ∈ es → P kv ↔ Q kv) → filter P es = filter Q es.
Proof.
  induction es as [|kv es IH]; intros Hag; [done|].
  rewrite !filter_cons.
  assert (filter P es = filter Q es) as ->.
  { apply IH. intros kv' Hin. apply Hag. by right. }
  destruct (decide (P kv)) as [Hp|Hp]; destruct (decide (Q kv)) as [Hq|Hq];
    try done.
  - exfalso. apply Hq. apply (Hag kv); [by left | done].
  - exfalso. apply Hp. apply (Hag kv); [by left | done].
Qed.

(** The entries of a directory node. *)

Lemma listdir_is_dir v : is_Some (listdir v) ↔ is_dir v = true.
Proof. destruct v; simpl; split; intros H; try done; by inversion H. Qed.

Lemma listdir_with_entries v d :
  is_dir v = true → listdir (with_entries v d) = Some d.
Proof. by destruct v. Qed.

Lemma with_entries_id v d : listdir v = Some d → with_entries v d = v.
Proof. destruct v; simpl; congruence. Qed.

Lemma with_entries_twice v d d' :
  with_entries (with_entries v d) d' = with_entries v d'.
Proof. by destruct v. Qed.

Lemma is_dir_with_entries v d : is_dir (with_entries v d) = is_dir v.
Proof. by destruct v. Qed.

Lemma is_regular_with_entries v d : is_regular (with_entries v d) = is_regular v.
Proof. by destruct v. Qed.

Lemma is_regular_not_dir v : is_regular v = true → is_dir v = false.
Proof. by destruct v. Qed.

Lemma not_dir_listdir v : is_dir v = false → listdir v = None.
Proof. by destruct v. Qed.

Lemma listdir_Some_is_dir v d : listdir v = Some d → is_dir v = true.
Proof. intros H. apply listdir_is_dir. by rewrite H. Qed.

Lemma listdir_Some_not_regular v d : listdir v = Some d → is_regular v = false.
Proof. by destruct v. Qed.

Lemma listdir_Some_Dir v d : listdir v = Some d → v = Dir d.
Proof. destruct v; simpl; congruence. Qed.

Lemma is_file_not_dir (E : environment) es k v :
  is_file E es k v = true → is_dir v = false.
Proof. by destruct v. Qed.

Lemma is_file_regular (E : environment) es k v :
  is_regular v = true → is_file E es k v = true.
Proof. by destruct v. Qed.

Lemma get2_Some c k es n :
  get2 c k es = Some n →
  ∃ dn d, get c es = Some dn ∧ listdir dn = Some d ∧ get k d = Some n.
Proof.
  unfold get2. destruct (get c es) as [dn|] eqn:Hc; [|done]. simpl.
  destruct (listdir dn) as [d|] eqn:Hd; [|done]. simpl. intros Hk.
  by exists dn, d.
Qed.

Lemma get2_intro c k es d :
  get c es = Some (Dir d) → get2 c k es = get k d.
Proof. unfold get2. by intros ->. Qed.

Lemma get2_put_ne c c' k v es : c ≠ c' → get2 c' k (put c v es) = get2 c' k es.
Proof. intros Hne. unfold get2. by rewrite get_put_ne. Qed.

Lemma get2_put_eq c k v es : get2 c k (put c v es) = listdir v ≫= get k.
Proof. unfold get2. by rewrite get_put_eq. Qed.

(** The listing of [iterdir()] filtered by [is_file()]. *)

Lemma elem_of_regular_files (E : environment) k es :
  NoDup es.*1 →
  k ∈ regular_files E es ↔ ∃ v, get k es = Some v ∧ is_file E es k v = true.
Proof.
  intros Hnd. unfold regular_files. rewrite list_elem_of_fmap. split.
  - intros [[k' v] [-> Hin]]. apply list_elem_of_filter in Hin as [Hf Hin].
    exists v. split; [by apply elem_of_get | done].
  - intros [v [Hget Hf]]. exists (k, v). split; [done|].
    apply list_elem_of_filter. split; [done | by apply get_Some_elem_of].
Qed.

Lemma NoDup_regular_files (E : environment) es :
  NoDup es.*1 → NoDup (regular_files E es).
Proof. apply NoDup_keys_filter. Qed.

(** The regular files of a directory. *)

Lemma elem_of_files_of k es :
  NoDup es.*1 →
  k ∈ files_of es ↔ ∃ v, get k es = Some v ∧ is_regular v = true.
Proof.
  intros Hnd. unfold files_of. rewrite list_elem_of_fmap. split.
  - intros [[k' v] [-> Hin]]. apply list_elem_of_filter in Hin as [Hf Hin].
    exists v. split; [by apply elem_of_get | by apply Is_true_true].
  - intros [v [Hget Hf]]. exists (k, v). split; [done|].
    apply list_elem_of_filter. split; [by apply Is_true_true | by apply get_Some_elem_of].
Qed.

Lemma NoDup_files_of es : NoDup es.*1 → NoDup (files_of es).
Proof. apply NoDup_keys_filter. Qed.

Lemma files_of_put k v es :
  is_regular v = false →
  (∀ v0, get k es = Some v0 → is_regular v0 = false) →
  files_of (put k v es) = files_of es.
Proof.
  intros Hv. unfold files_of.
  assert (¬ is_regular (k, v).2) as Hnv by (simpl; rewrite Hv; intros []).
  induction es as [|[k' v'] es IH]; simpl; intros H0.
  - by rewrite filter_cons_False.
  - destruct (decide (k' = k)) as [->|Hne].
    + rewrite !filter_cons_False; [done | | done].
      simpl. rewrite (H0 v') by done. intros [].
    + rewrite !filter_cons. case_decide; csimpl; by rewrite IH.
Qed.

Lemma files_of_remove k es :
  files_of (remove k es) = filter (λ x, x ≠ k) (files_of es).
Proof.
  unfold files_of, remove. induction es as [|[k' v'] es IH]; [done|].
  rewrite (filter_cons (λ kv, kv.1 ≠ k)).
  rewrite (filter_cons (λ kv, is_regular kv.2) (k', v')).
  destruct (decide ((k', v').1 ≠ k)) as [Hk|Hk];
    destruct (decide (is_regular (k', v').2)) as [Hf|Hf]; simpl in Hk, Hf.
  - rewrite filter_cons_True by done. csimpl.
    rewrite filter_cons_True by done. by rewrite IH.
  - rewrite filter_cons_False by done. exact IH.
  - csimpl. rewrite filter_cons_False by done. exact IH.
  - exact IH.
Qed.

(** Directories without symbolic links. *)

Lemma no_links_get d k v : no_links d = true → get k d = Some v → is_link v = false.
Proof.
  unfold no_links. rewrite forallb_forall. intros H Hk.
  apply get_Some_elem_of, list_elem_of_In, H in Hk. simpl in Hk.
  by destruct (is_link v).
Qed.

Lemma no_links_put d k v :
  no_links d = true → is_link v = false → no_links (put k v d) = true.
Proof.
  intros Hd Hv. induction d as [|[k' v'] d IH]; simpl in *.
  - by rewrite Hv.
  - apply andb_true_iff in Hd as [H1 H2]. case_decide; simpl.
    + by rewrite Hv, H2.
    + by rewrite H1, IH.
Qed.

Lemma no_links_remove d k : no_links d = true → no_links (remove k d) = true.
Proof.
  unfold no_links, remove. rewrite !forallb_forall. intros H x Hx.
  apply H. apply list_elem_of_In. apply list_elem_of_In in Hx.
  by apply list_elem_of_filter in Hx as [_ ?].
Qed.

Lemma plain_get es k v :
  plain es = true → get k es = Some v →
  is_link v = false ∧ ∀ d, v = Dir d → no_links d = true.
Proof.
  unfold plain. rewrite forallb_forall. intros H Hk.
  apply get_Some_elem_of, list_elem_of_In, H in Hk. simpl in Hk.
  destruct v; try done. split; [done|]. by intros d [= <-].
Qed.

Lemma plain_put es k d :
  plain es = true → no_links d = true → plain (put k (Dir d) es) = true.
Proof.
  intros Hes Hd. induction es as [|[k' v'] es IH]; simpl in *.
  - by rewrite Hd.
  - apply andb_true_iff in Hes as [H1 H2]. case_decide; simpl.
    + by rewrite Hd, H2.
    + by rewrite H1, IH.
Qed.

Lemma plain_remove es k : plain es = true → plain (remove k es) = true.
Proof.
  unfold plain, remove. rewrite !forallb_forall. intros H x Hx.
  apply H. apply list_elem_of_In. apply list_elem_of_In in Hx.
  by apply list_elem_of_filter in Hx as [_ ?].
Qed.

(** In a directory without links, [is_file()] accepts the regular files
    and [exists()] finds what is there. *)
Lemma regular_files_plain (E : environment) es :
  plain es = true → regular_files E es = files_of es.
Proof.
  intros Hp. unfold regular_files, files_of. f_equal.
  apply filter_agree. intros [k v] Hin. simpl.
  assert (is_link v = false) as Hl.
  { unfold plain in Hp. rewrite forallb_forall in Hp.
    apply list_elem_of_In, Hp in Hin. simpl in Hin. by destruct v. }
  destruct v; simpl in *; done.
Qed.

Lemma dest_exists_plain (E : environment) c k es :
  plain es = true →
  dest_exists E c k es = bool_decide (is_Some (get2 c k es)).
Proof.
  intros Hp. unfold dest_exists.
  destruct (get2 c k es) as [v|] eqn:Hv.
  - rewrite bool_decide_eq_true_2 by (by eexists).
    destruct (get2_Some _ _ _ _ Hv) as (dn & d & Hc & Hd & Hk).
    apply listdir_Some_Dir in Hd as ->.
    destruct (plain_get _ _ _ Hp Hc) as [_ Hnl].
    pose proof (no_links_get _ _ _ (Hnl d eq_refl) Hk) as Hl.
    by destruct v.
  - rewrite bool_decide_eq_false_2; [done|]. by intros [? ?].
Qed.

Lemma no_linked_folder_get es k v :
  no_linked_folder es → get k es = Some v → is_link v = true → k ∉ folder_names.
Proof.
  unfold no_linked_folder. rewrite Forall_forall. intros H Hk Hl.
  by apply (H (k, v) (get_Some_elem_of _ _ _ Hk)).
Qed.

Lemma plain_no_linked_folder es : plain es = true → no_linked_folder es.
Proof.
  intros Hp. apply Forall_forall. intros [k v] Hin Hl. exfalso.
  unfold plain in Hp. rewrite forallb_forall in Hp.
  apply list_elem_of_In, Hp in Hin. simpl in *. by destruct v.
Qed.

End directories.

(** ** What one pass of the loop body can do to the tree *)

Section steps.

Implicit Types (E : environment) (k c f : string) (v : node) (es : entries)
  (st : state).

Lemma category_in_folder_names f : get_category_for_file f ∈ folder_names.
Proof.
  assert (map_Forall (λ _ cat, cat ∈ folder_names) EXTENSION_TO_CATEGORY) as Hall.
  { apply (bool_decide_unpack _). by vm_compute. }
  unfold get_category_for_file.
  destruct (EXTENSION_TO_CATEGORY !! lower (suffix f)) as [cat|] eqn:Hc; simpl.
  - exact (Hall _ _ Hc).
  - by constructor.
Qed.

Lemma set_tree_id st : set_tree (tree st) st = st.
Proof. by destruct st. Qed.

(** [print] changes no entry, and prints its line or nothing. *)
Lemma say_tree E l st st' r : say E l st = (st', r) → tree st' = tree st.
Proof. unfold say. destruct (stdout_raises E l); by intros [= <- <-]. Qed.

Lemma say_out E l st st' r :
  say E l st = (st', r) →
  match r with
  | None => out st' = out st ++ [l]
  | Some _ => out st' = out st
  end.
Proof. unfold say. destruct (stdout_raises E l); by intros [= <- <-]. Qed.

Lemma say_prints E l st : stdout_raises E l = None → say E l st = (print l st, None).
Proof. unfold say. by intros ->. Qed.

Lemma say_raises E l st st' e :
  say E l st = (st', Some e) → e = UnicodeEncodeError ∨ ∃ why, e = OSError why.
Proof.
  unfold say. destruct (stdout_raises E l) as [[|why]|]; intros [= <- <-];
    [by left | right; by exists why].
Qed.

Lemma mkdir_exist_ok_Ok E c es es' :
  mkdir_exist_ok E c es = Ok es' →
  (es' = es ∧ ∃ n, get c es = Some n ∧ is_dir n = true) ∨
  (es' = put c (Dir []) es ∧ get c es = None ∧ refuses E (Mkdir c) = None).
Proof.
  unfold mkdir_exist_ok. destruct (get c es) as [[data|d|target]|] eqn:Hc.
  - done.
  - intros [= <-]. left. eauto.
  - by destruct (resolves E es [c] target) as [[]|].
  - destruct (refuses E (Mkdir c)); intros [= <-]. by right.
Qed.

Lemma mkdir_exist_ok_prepares E c f es es' :
  mkdir_exist_ok E c es = Ok es' → prepares c f es es'.
Proof.
  intros [[-> _]|(-> & Hc & _)]%mkdir_exist_ok_Ok; by constructor.
Qed.

Lemma mkdir_exist_ok_is_dir E c es es' :
  mkdir_exist_ok E c es = Ok es' → ∃ n, get c es' = Some n ∧ is_dir n = true.
Proof.
  intros [[-> H]|(-> & Hc & _)]%mkdir_exist_ok_Ok; [done|].
  exists (Dir []). by rewrite get_put_eq.
Qed.


(** The model leaves a run only where a link has the name of a folder. *)
Lemma mkdir_exist_ok_through E c es :
  mkdir_exist_ok E c es = Raise ThroughLink →
  ∃ target, get c es = Some (Link target).
Proof.
  unfold mkdir_exist_ok. destruct (get c es) as [[data|d|target]|]; try done.
  - intros _. by exists target.
  - by destruct (refuses E (Mkdir c)).
Qed.

Lemma unlink_Ok E c f es es' :
  unlink E c f es = Ok es' →
  ∃ dn d, get c es = Some dn ∧ listdir dn = Some d ∧ is_Some (get f d) ∧
    refuses E (Unlink c f) = None ∧
    es' = put c (with_entries dn (remove f d)) es.
Proof.
  unfold unlink. destruct (get c es) as [dn|] eqn:Hc; [|done].
  destruct (listdir dn) as [d|] eqn:Hd; [|done].
  destruct (get f d) as [old|] eqn:Hold; [|done].
  destruct (refuses E (Unlink c f)) eqn:HE; destruct old; intros [= <-];
    exists dn, d; repeat split; eauto.
Qed.

Lemma unlink_prepares E c f es es' :
  unlink E c f es = Ok es' → prepares c f es es'.
Proof.
  intros (dn & d & Hc & Hd & _ & _ & ->)%unlink_Ok. by econstructor.
Qed.

Lemma unlink_Raise E c f es e :
  unlink E c f es = Raise e →
  (e ≠ NotADirectoryError ∧ e ≠ ThroughLink ∧ e ≠ UnicodeEncodeError) ∨
  get c es ≫= listdir = None.
Proof.
  unfold unlink. destruct (get c es) as [dn|]; simpl; [|by right].
  destruct (listdir dn) as [d|]; [|by right].
  destruct (get f d) as [old|]; [|by intros [= <-]; left].
  destruct (refuses E (Unlink c f)); destruct old; intros [= <-]; by left.
Qed.

Lemma rename_Ok E f c es es' :
  rename E f c es = Ok es' →
  refuses E (Rename f c) = None ∧ moves c f es es'.
Proof.
  unfold rename. destruct (refuses E (Rename f c)); [done|].
  destruct (get f es) as [src|] eqn:Hf; [|done].
  destruct (get c es) as [dn|] eqn:Hc; [|done].
  destruct (listdir dn) as [d|] eqn:Hd; [|done].
  destruct (get f d) as [[]|]; intros [= <-]; split; try done; by econstructor.
Qed.

(** [rename] goes through when it is not refused, the source is there,
    the folder is a directory and no directory is in the way. *)
Lemma rename_goes E f c es src d :
  refuses E (Rename f c) = None → get f es = Some src →
  get c es = Some (Dir d) → (∀ d', get f d ≠ Some (Dir d')) →
  rename E f c es = Ok (put c (Dir (put f src d)) (remove f es)).
Proof.
  intros HE Hf Hc Hd. unfold rename. rewrite HE, Hf, Hc. simpl.
  destruct (get f d) as [[]|] eqn:Hfd; try done. by destruct (Hd entries).
Qed.

(** What the [try] of lines 114-118 leaves after a successful [rename]. *)
Lemma after_rename_tree E f c es3 st st' r :
  match stdout_raises E (Move f c) with
  | None => (print (Move f c) (set_tree es3 st), None)
  | Some (Broken e) => say E (ErrorMoving f (OSError e)) (set_tree es3 st)
  | Some Unencodable => (set_tree es3 st, Some UnicodeEncodeError)
  end = (st', r) →
  tree st' = es3.
Proof.
  destruct (stdout_raises E (Move f c)) as [[|e]|].
  - by intros [= <- <-].
  - by intros ->%say_tree.
  - by intros [= <- <-].
Qed.

#[local] Ltac chain a b :=
  exists a, b;
  (split; [first [done | constructor] |]);
  (split; [first [done | constructor] |]).

(** The tree after the loop body: made ready twice at most, then moved or
    left alone. *)
Lemma organise_file_tree E dry skip f st st' r :
  organise_file E dry skip f st = (st', r) →
  let c := get_category_for_file f in
  ∃ es1 es2, prepares c f (tree st) es1 ∧ prepares c f es1 es2 ∧
    (tree st' = es2 ∨ moves c f es2 (tree st')).
Proof.
  intros H c. unfold organise_file in H. cbv zeta in H. fold c in H.
  destruct dry.
  { apply say_tree in H. chain (tree st) (tree st). by left. }
  destruct (mkdir_exist_ok E c (tree st)) as [es1|e] eqn:Hmk.
  2:{ injection H as <- <-. chain (tree st) (tree st). by left. }
  apply (mkdir_exist_ok_prepares _ _ f) in Hmk.
  destruct (dest_exists E c f es1 && skip).
  { apply say_tree in H. chain es1 es1. by left. }
  destruct (dest_exists E c f es1).
  - destruct (unlink E c f es1) as [es2|e] eqn:Hul.
    + apply unlink_prepares in Hul.
      destruct (rename E f c es2) as [es3|e] eqn:Hrn.
      * apply rename_Ok in Hrn as [_ Hrn]. apply after_rename_tree in H.
        chain es1 es2. right. by rewrite H.
      * apply say_tree in H. chain es1 es2. by left.
    + injection H as <- <-. chain es1 es1. by left.
  - destruct (rename E f c es1) as [es3|e] eqn:Hrn.
    + apply rename_Ok in Hrn as [_ Hrn]. apply after_rename_tree in H.
      chain es1 es1. right. by rewrite H.
    + apply say_tree in H. chain es1 es1. by left.
Qed.

(** *** Frames of the two kinds of change *)

Lemma kept_refl c k v : kept c k v v.
Proof. by left. Qed.

Lemma kept_trans c k v1 v2 v3 : kept c k v1 v2 → kept c k v2 v3 → kept c k v1 v3.
Proof.
  intros [->|(Hk & Hd & d & ->)] [->|(Hk' & Hd' & d' & ->)].
  - by left.
  - right. split_and!; eauto.
  - right. split_and!; eauto.
  - right. rewrite with_entries_twice. split_and!; eauto.
Qed.

Lemma kept_other c k v v' : k ≠ c → kept c k v v' → v' = v.
Proof. intros Hne [->|(? & _)]; [done | by subst]. Qed.

Lemma kept_not_dir c k v v' : is_dir v = false → kept c k v v' → v' = v.
Proof. intros Hd [->|(_ & Hd' & _)]; [done | congruence]. Qed.

Lemma kept_is_dir c k v v' : kept c k v v' → is_dir v' = is_dir v.
Proof. intros [->|(_ & _ & d & ->)]; [done | apply is_dir_with_entries]. Qed.

Lemma prepares_top c f k v es es' :
  prepares c f es es' → get k es = Some v →
  ∃ v', get k es' = Some v' ∧ kept c k v v'.
Proof.
  intros [es0|es0 Hc|es0 dn d Hc Hd] Hk.
  - exists v. split; [done | apply kept_refl].
  - exists v. split; [|apply kept_refl].
    rewrite get_put_ne; [done | congruence].
  - destruct (decide (c = k)) as [->|Hne].
    + rewrite get_put_eq. rewrite Hc in Hk. injection Hk as <-.
      eexists. split; [done|]. right. split; [done|].
      split; [by eapply listdir_Some_is_dir | eauto].
    + exists v. split; [by rewrite get_put_ne | apply kept_refl].
Qed.

Lemma prepares_no_file c f k es es' :
  prepares c f es es' → no_file_at k es → no_file_at k es'.
Proof.
  intros [es0|es0 Hc|es0 dn d Hc Hd] Hk; [done | |]; intros v.
  - destruct (decide (c = k)) as [->|Hne].
    + rewrite get_put_eq. by intros [= <-].
    + rewrite get_put_ne by done. apply Hk.
  - destruct (decide (c = k)) as [->|Hne].
    + rewrite get_put_eq. intros [= <-]. rewrite is_dir_with_entries.
      by eapply listdir_Some_is_dir.
    + rewrite get_put_ne by done. apply Hk.
Qed.

Lemma prepares_get2 c f c' k es es' :
  prepares c f es es' → c' ≠ c ∨ k ≠ f → get2 c' k es' = get2 c' k es.
Proof.
  intros [es0|es0 Hc|es0 dn d Hc Hd] Hne; [done | |].
  - destruct (decide (c = c')) as [<-|Hcc]; [|by apply get2_put_ne].
    rewrite get2_put_eq. unfold get2. by rewrite Hc.
  - destruct (decide (c = c')) as [<-|Hcc]; [|by apply get2_put_ne].
    destruct Hne as [?|Hkf]; [done|].
    rewrite get2_put_eq. unfold get2. rewrite Hc. simpl. rewrite Hd. simpl.
    rewrite listdir_with_entries by (by eapply listdir_Some_is_dir). simpl.
    by rewrite get_remove_ne.
Qed.

(** What a preparation leaves at [c/f]: what was there, or nothing. *)
Lemma prepares_dest c f es es' :
  prepares c f es es' → get2 c f es' = get2 c f es ∨ get2 c f es' = None.
Proof.
  intros [es0|es0 Hc|es0 dn d Hc Hd]; [by left | |].
  - left. rewrite get2_put_eq. unfold get2. by rewrite Hc.
  - right. rewrite get2_put_eq.
    rewrite listdir_with_entries by (by eapply listdir_Some_is_dir). simpl.
    apply get_remove_eq.
Qed.

Lemma prepares_NoDup c f es es' :
  prepares c f es es' → NoDup es.*1 → NoDup es'.*1.
Proof. intros [es0|es0 Hc|es0 dn d Hc Hd] Hnd; [done | |]; by apply NoDup_keys_put. Qed.

Lemma prepares_files_of c f es es' :
  prepares c f es es' → files_of es' = files_of es.
Proof.
  intros [es0|es0 Hc|es0 dn d Hc Hd]; [done | |]; apply files_of_put.
  - done.
  - intros v0. by rewrite Hc.
  - rewrite is_regular_with_entries. by eapply listdir_Some_not_regular.
  - intros v0. rewrite Hc. intros [= <-]. by eapply listdir_Some_not_regular.
Qed.

Lemma prepares_plain c f es es' :
  prepares c f es es' → plain es = true → plain es' = true.
Proof.
  intros [es0|es0 Hc|es0 dn d Hc Hd] Hp; [done | |].
  - by apply plain_put.
  - apply listdir_Some_Dir in Hd as ->. simpl. apply plain_put; [done|].
    apply no_links_remove. by apply (plain_get _ _ _ Hp Hc).
Qed.

Lemma moves_top c f k v es es' :
  moves c f es es' → k ≠ f → get k es = Some v →
  ∃ v', get k es' = Some v' ∧ kept c k v v'.
Proof.
  intros [es0 src dn d Hf Hc Hd] Hne Hk.
  destruct (decide (c = k)) as [->|Hck].
  - rewrite get_put_eq. rewrite Hc in Hk. injection Hk as <-.
    eexists. split; [done|]. right. split; [done|].
    split; [by eapply listdir_Some_is_dir | eauto].
  - exists v. split; [|apply kept_refl].
    rewrite get_put_ne by done. by rewrite get_remove_ne.
Qed.

Lemma moves_no_file c f k es es' :
  moves c f es es' → no_file_at k es → no_file_at k es'.
Proof.
  intros [es0 src dn d Hf Hc Hd] Hk v.
  destruct (decide (c = k)) as [->|Hck].
  - rewrite get_put_eq. intros [= <-]. rewrite is_dir_with_entries.
    by eapply listdir_Some_is_dir.
  - rewrite get_put_ne by done. destruct (decide (f = k)) as [->|Hfk].
    + by rewrite get_remove_eq.
    + rewrite get_remove_ne by done. apply Hk.
Qed.

Lemma moves_source_gone c f es es' :
  moves c f es es' → file_at f es → get f es' = None.
Proof.
  intros [es0 src dn d Hf Hc Hd] (v & Hv & Hfile).
  assert (c ≠ f) as Hne.
  { intros ->. rewrite Hc in Hv. injection Hv as <-.
    apply listdir_Some_is_dir in Hd. congruence. }
  rewrite get_put_ne by done. apply get_remove_eq.
Qed.

Lemma moves_dest c f es es' src :
  moves c f es es' → get f es = Some src → get2 c f es' = Some src.
Proof.
  intros [es0 src' dn d Hf Hc Hd] Hsrc. rewrite Hf in Hsrc. injection Hsrc as ->.
  rewrite get2_put_eq.
  rewrite listdir_with_entries by (by eapply listdir_Some_is_dir). simpl.
  apply get_put_eq.
Qed.

Lemma moves_get2 c f c' k es es' :
  moves c f es es' → file_at f es → c' ≠ c ∨ k ≠ f →
  get2 c' k es' = get2 c' k es.
Proof.
  intros [es0 src dn d Hf Hc Hd] (v & Hv & Hfile) Hne.
  assert (c ≠ f) as Hcf.
  { intros ->. rewrite Hc in Hv. injection Hv as <-.
    apply listdir_Some_is_dir in Hd. congruence. }
  destruct (decide (c = c')) as [<-|Hcc].
  - destruct Hne as [?|Hkf]; [done|].
    rewrite get2_put_eq. unfold get2. rewrite Hc. simpl. rewrite Hd. simpl.
    rewrite listdir_with_entries by (by eapply listdir_Some_is_dir). simpl.
    by rewrite get_put_ne.
  - rewrite get2_put_ne by done. unfold get2.
    destruct (decide (f = c')) as [<-|Hfc].
    + rewrite get_remove_eq, Hv. simpl. by rewrite (not_dir_listdir _ Hfile).
    + by rewrite get_remove_ne.
Qed.

Lemma moves_NoDup c f es es' :
  moves c f es es' → NoDup es.*1 → NoDup es'.*1.
Proof.
  intros [es0 src dn d Hf Hc Hd] Hnd. by apply NoDup_keys_put, NoDup_keys_remove.
Qed.

Lemma moves_files_of c f es es' :
  moves c f es es' →
  files_of es' = filter (λ x, x ≠ f) (files_of es).
Proof.
  intros [es0 src dn d Hf Hc Hd].
  rewrite files_of_put.
  - apply files_of_remove.
  - rewrite is_regular_with_entries. by eapply listdir_Some_not_regular.
  - intros v0. destruct (decide (f = c)) as [->|Hne].
    + by rewrite get_remove_eq.
    + rewrite get_remove_ne by done. rewrite Hc. intros [= <-].
      by eapply listdir_Some_not_regular.
Qed.

Lemma moves_plain c f es es' :
  moves c f es es' → plain es = true → plain es' = true.
Proof.
  intros [es0 src dn d Hf Hc Hd] Hp.
  apply listdir_Some_Dir in Hd as ->. simpl.
  destruct (plain_get _ _ _ Hp Hf) as [Hsrc _].
  destruct (plain_get _ _ _ Hp Hc) as [_ Hd].
  apply plain_put; [by apply plain_remove|].
  apply no_links_put; [by apply Hd | done].
Qed.

End steps.

(** ** Frames of the loop body and of the loop *)

Section loop.

Context (E : environment) (dry skip : bool).

Implicit Types (k c f g : string) (v : node) (es : entries) (st : state)
  (fs : list string).

Lemma kept_kept_by_run f k v v' :
  kept (get_category_for_file f) k v v' → kept_by_run k v v'.
Proof.
  intros [->|(-> & Hd & d & ->)]; [by left|].
  right. split_and!; eauto using category_in_folder_names.
Qed.

Lemma kept_by_run_trans k v1 v2 v3 :
  kept_by_run k v1 v2 → kept_by_run k v2 v3 → kept_by_run k v1 v3.
Proof.
  intros [->|(Hk & Hd & d & ->)] [->|(Hk' & Hd' & d' & ->)].
  - by left.
  - right. split_and!; eauto.
  - right. split_and!; eauto.
  - right. rewrite with_entries_twice. split_and!; eauto.
Qed.

Lemma kept_by_run_not_dir k v v' : is_dir v = false → kept_by_run k v v' → v' = v.
Proof. intros Hd [->|(_ & Hd' & _)]; [done | congruence]. Qed.

Lemma kept_by_run_other k v v' : k ∉ folder_names → kept_by_run k v v' → v' = v.
Proof. intros Hk [->|(Hk' & _)]; done. Qed.

Lemma kept_by_run_is_dir k v v' : kept_by_run k v v' → is_dir v' = is_dir v.
Proof. intros [->|(_ & _ & d & ->)]; [done | apply is_dir_with_entries]. Qed.

Lemma prepares_file_at c f g es es' :
  prepares c f es es' → file_at g es → file_at g es'.
Proof.
  intros Hp (v & Hv & Hf).
  destruct (prepares_top _ _ _ _ _ _ Hp Hv) as (v' & Hv' & Hk).
  exists v'. split; [done|]. by rewrite (kept_is_dir _ _ _ _ Hk).
Qed.

Lemma organise_file_top f k v st st' r :
  organise_file E dry skip f st = (st', r) → k ≠ f →
  get k (tree st) = Some v →
  ∃ v', get k (tree st') = Some v' ∧ kept (get_category_for_file f) k v v'.
Proof.
  intros (es1 & es2 & H1 & H2 & H3)%organise_file_tree Hne Hk.
  destruct (prepares_top _ _ _ _ _ _ H1 Hk) as (v1 & Hv1 & K1).
  destruct (prepares_top _ _ _ _ _ _ H2 Hv1) as (v2 & Hv2 & K2).
  destruct H3 as [->|H3].
  - exists v2. split; [done|]. by eapply kept_trans.
  - destruct (moves_top _ _ _ _ _ _ H3 Hne Hv2) as (v3 & Hv3 & K3).
    exists v3. split; [done|]. eapply kept_trans; [|done]. by eapply kept_trans.
Qed.

Lemma organise_file_file_at f g st st' r :
  organise_file E dry skip f st = (st', r) → g ≠ f →
  file_at g (tree st) → file_at g (tree st').
Proof.
  intros H Hne (v & Hv & Hf).
  destruct (organise_file_top _ _ _ _ _ _ H Hne Hv) as (v' & Hv' & Hk).
  exists v'. split; [done|]. by rewrite (kept_is_dir _ _ _ _ Hk).
Qed.

Lemma organise_file_no_file f k st st' r :
  organise_file E dry skip f st = (st', r) →
  no_file_at k (tree st) → no_file_at k (tree st').
Proof.
  intros (es1 & es2 & H1 & H2 & H3)%organise_file_tree Hk.
  apply (prepares_no_file _ _ _ _ _ H1) in Hk.
  apply (prepares_no_file _ _ _ _ _ H2) in Hk.
  destruct H3 as [->|H3]; [done|]. by eapply moves_no_file.
Qed.

Lemma organise_file_get2 f c' k st st' r :
  organise_file E dry skip f st = (st', r) → file_at f (tree st) →
  c' ≠ get_category_for_file f ∨ k ≠ f →
  get2 c' k (tree st') = get2 c' k (tree st).
Proof.
  intros (es1 & es2 & H1 & H2 & H3)%organise_file_tree Hf Hne.
  rewrite <- (prepares_get2 _ _ _ _ _ _ H1 Hne).
  rewrite <- (prepares_get2 _ _ _ _ _ _ H2 Hne).
  destruct H3 as [->|H3]; [done|].
  eapply moves_get2; [done | | done].
  by eapply prepares_file_at, prepares_file_at.
Qed.

(** What a pass leaves at the destination of its file: what was there,
    nothing, or the file. *)
Lemma organise_file_dest f src st st' r :
  organise_file E dry skip f st = (st', r) →
  get f (tree st) = Some src → is_dir src = false →
  let c := get_category_for_file f in
  get2 c f (tree st') = get2 c f (tree st) ∨ get2 c f (tree st') = None ∨
  get2 c f (tree st') = Some src.
Proof.
  intros (es1 & es2 & H1 & H2 & H3)%organise_file_tree Hsrc Hnd c. fold c in H1, H2, H3.
  destruct (prepares_top _ _ _ _ _ _ H1 Hsrc) as (w1 & Hw1 & K1).
  apply kept_not_dir in K1 as ->; [|done].
  destruct (prepares_top _ _ _ _ _ _ H2 Hw1) as (w2 & Hw2 & K2).
  apply kept_not_dir in K2 as ->; [|done].
  destruct H3 as [->|H3].
  - destruct (prepares_dest _ _ _ _ H2) as [-> | ->]; [|by right; left].
    destruct (prepares_dest _ _ _ _ H1) as [-> | ->]; [by left | by right; left].
  - right. right. by eapply moves_dest.
Qed.

Lemma organise_file_NoDup f st st' r :
  organise_file E dry skip f st = (st', r) →
  NoDup (tree st).*1 → NoDup (tree st').*1.
Proof.
  intros (es1 & es2 & H1 & H2 & H3)%organise_file_tree Hnd.
  apply (prepares_NoDup _ _ _ _ H1) in Hnd.
  apply (prepares_NoDup _ _ _ _ H2) in Hnd.
  destruct H3 as [->|H3]; [done|]. by eapply moves_NoDup.
Qed.

Lemma organise_file_plain f st st' r :
  organise_file E dry skip f st = (st', r) →
  plain (tree st) = true → plain (tree st') = true.
Proof.
  intros (es1 & es2 & H1 & H2 & H3)%organise_file_tree Hp.
  apply (prepares_plain _ _ _ _ H1) in Hp.
  apply (prepares_plain _ _ _ _ H2) in Hp.
  destruct H3 as [->|H3]; [done|]. by eapply moves_plain.
Qed.

(** What a pass prints: one line about its file when it returns, nothing
    when it raises. *)
Lemma say_line l f st st' r :
  subject l = Some f → say E l st = (st', r) →
  match r with
  | None => ∃ l', out st' = out st ++ [l'] ∧ subject l' = Some f
  | Some _ => out st' = out st
  end.
Proof.
  intros Hl Hsay. apply say_out in Hsay. destruct r; [done|]. eauto.
Qed.

Lemma organise_file_line f st st' r :
  organise_file E dry skip f st = (st', r) →
  match r with
  | None => ∃ l, out st' = out st ++ [l] ∧ subject l = Some f
  | Some _ => out st' = out st
  end.
Proof.
  assert (∀ l st1, subject l = Some f → out st1 = out st →
            say E l st1 = (st', r) →
            match r with
            | None => ∃ l, out st' = out st ++ [l] ∧ subject l = Some f
            | Some _ => out st' = out st
            end) as Hsay.
  { intros l st1 Hl <- Hs. by eapply say_line. }
  unfold organise_file. destruct dry.
  { by apply Hsay. }
  destruct (mkdir_exist_ok E _ (tree st)) as [es1|e]; [|by intros [= <- <-]].
  destruct (dest_exists E _ f es1 && skip); [by apply Hsay|].
  destruct (if dest_exists E _ f es1 then _ else _) as [es2|e];
    [|by intros [= <- <-]].
  destruct (rename E f _ es2); [|by apply Hsay].
  destruct (stdout_raises E (Move f _)) as [[|e]|].
  - by intros [= <- <-].
  - by apply Hsay.
  - intros [= <- <-]. eauto.
Qed.

(** What the loop body prints is about its file. *)
Lemma organise_file_out f st st' r :
  organise_file E dry skip f st = (st', r) →
  out st' = out st ∨ ∃ l, out st' = out st ++ [l] ∧ subject l = Some f.
Proof.
  intros H%organise_file_line. destruct r; [by left | by right].
Qed.

Lemma organise_files_app fs1 fs2 st :
  organise_files E dry skip (fs1 ++ fs2) st =
    match organise_files E dry skip fs1 st with
    | (st1, None) => organise_files E dry skip fs2 st1
    | (st1, Some e) => (st1, Some e)
    end.
Proof.
  revert st. induction fs1 as [|f fs1 IH]; intros st; simpl; [done|].
  destruct (organise_file E dry skip f st) as [st1 [e|]]; [done | apply IH].
Qed.

Lemma organise_files_split pre f post st :
  organise_files E dry skip (pre ++ f :: post) st =
    match organise_files E dry skip pre st with
    | (st1, None) =>
        match organise_file E dry skip f st1 with
        | (st2, None) => organise_files E dry skip post st2
        | (st2, Some e) => (st2, Some e)
        end
    | (st1, Some e) => (st1, Some e)
    end.
Proof. by rewrite organise_files_app. Qed.

(** An invariant of the tree that every pass of the body keeps is kept by
    the loop. *)
Lemma organise_files_preserves (Φ : entries → Prop) fs :
  NoDup fs →
  (∀ g st st' r, g ∈ fs → file_at g (tree st) → Φ (tree st) →
     organise_file E dry skip g st = (st', r) → Φ (tree st')) →
  ∀ st st' r, listed fs (tree st) → Φ (tree st) →
    organise_files E dry skip fs st = (st', r) → Φ (tree st').
Proof.
  induction fs as [|g fs IH]; intros Hnd Hstep st st' r Hl HΦ; simpl.
  - by intros [= <- <-].
  - apply NoDup_cons in Hnd as [Hg Hnd].
    destruct (organise_file E dry skip g st) as [st1 r1] eqn:Hbody.
    assert (Φ (tree st1)) as HΦ1.
    { eapply Hstep; [by left | apply Hl; by left | done | done]. }
    destruct r1 as [e|]; [by intros [= <- <-]|].
    apply IH; [done | | | done].
    + intros g' st2 st2' r2 Hg'. apply Hstep. by right.
    + intros h Hh. eapply organise_file_file_at; [done | | apply Hl; by right].
      intros ->. done.
Qed.

Lemma organise_files_top fs k v st st' r :
  NoDup fs → listed fs (tree st) → k ∉ fs →
  organise_files E dry skip fs st = (st', r) →
  get k (tree st) = Some v →
  ∃ v', get k (tree st') = Some v' ∧ kept_by_run k v v'.
Proof.
  intros Hnd Hl Hk Hrun Hv.
  eapply (organise_files_preserves
            (λ es, ∃ v', get k es = Some v' ∧ kept_by_run k v v') fs);
    [done | | done | | done].
  - intros g st1 st1' r1 Hg _ (v1 & Hv1 & K1) Hbody.
    assert (k ≠ g) as Hne by (intros ->; done).
    destruct (organise_file_top _ _ _ _ _ _ Hbody Hne Hv1) as (v2 & Hv2 & K2).
    exists v2. split; [done|].
    eapply kept_by_run_trans; [done|]. by eapply kept_kept_by_run.
  - exists v. split; [done | by left].
Qed.

Lemma organise_files_file_at fs g st st' r :
  NoDup fs → listed fs (tree st) → g ∉ fs →
  organise_files E dry skip fs st = (st', r) →
  file_at g (tree st) → file_at g (tree st').
Proof.
  intros Hnd Hl Hg Hrun (v & Hv & Hf).
  destruct (organise_files_top fs g v st st' r Hnd Hl Hg Hrun Hv)
    as (v' & Hv' & Hk).
  exists v'. split; [done|]. by rewrite (kept_by_run_is_dir _ _ _ Hk).
Qed.

Lemma organise_files_get2 fs c' k st st' r :
  NoDup fs → listed fs (tree st) → k ∉ fs →
  organise_files E dry skip fs st = (st', r) →
  get2 c' k (tree st') = get2 c' k (tree st).
Proof.
  intros Hnd Hl Hk Hrun.
  eapply (organise_files_preserves (λ es, get2 c' k es = get2 c' k (tree st)) fs);
    [done | | done | done | done].
  intros g st1 st1' r1 Hg Hfile <- Hbody.
  eapply organise_file_get2; [done | done |]. right. intros ->. done.
Qed.

Lemma organise_files_no_file fs k st st' r :
  NoDup fs → listed fs (tree st) →
  organise_files E dry skip fs st = (st', r) →
  no_file_at k (tree st) → no_file_at k (tree st').
Proof.
  intros Hnd Hl Hrun Hk.
  eapply (organise_files_preserves (no_file_at k) fs); [done | | done | done | done].
  intros g st1 st1' r1 _ _ H1 Hbody. by eapply organise_file_no_file.
Qed.

Lemma organise_files_NoDup fs st st' r :
  NoDup fs → listed fs (tree st) →
  organise_files E dry skip fs st = (st', r) →
  NoDup (tree st).*1 → NoDup (tree st').*1.
Proof.
  intros Hnd Hl Hrun Hk.
  eapply (organise_files_preserves (λ es, NoDup es.*1) fs);
    [done | | done | exact Hk | done].
  intros g st1 st1' r1 _ _ H1 Hbody. by eapply organise_file_NoDup.
Qed.

(** The lines of the loop are about the files of its list. *)
Lemma organise_files_out fs st st' r :
  organise_files E dry skip fs st = (st', r) →
  ∃ ls, out st' = out st ++ ls ∧
    ∀ l, l ∈ ls → ∃ f, f ∈ fs ∧ subject l = Some f.
Proof.
  revert st. induction fs as [|f fs IH]; intros st; simpl.
  - intros [= <- <-]. exists []. split; [by rewrite app_nil_r|].
    intros l Hl. by apply elem_of_nil in Hl.
  - destruct (organise_file E dry skip f st) as [st1 r1] eqn:Hbody.
    apply organise_file_out in Hbody.
    assert (∃ ls1, out st1 = out st ++ ls1 ∧
              ∀ l, l ∈ ls1 → subject l = Some f) as (ls1 & Hout1 & Hls1).
    { destruct Hbody as [->|(l & -> & Hl)].
      - exists []. split; [by rewrite app_nil_r|]. intros l Hl. by apply elem_of_nil in Hl.
      - exists [l]. split; [done|]. intros l' ->%list_elem_of_singleton. done. }
    destruct r1 as [e|].
    + intros [= <- <-]. exists ls1. split; [done|].
      intros l Hl. exists f. split; [by left | auto].
    + intros (ls & Hout & Hls)%IH. exists (ls1 ++ ls). split.
      * by rewrite Hout, Hout1, app_assoc.
      * intros l [Hl|Hl]%elem_of_app.
        -- exists f. split; [by left | auto].
        -- destruct (Hls l Hl) as (f' & Hf' & Hs). exists f'. split; [by right | done].
Qed.

Lemma organise_files_lines fs st st' r :
  organise_files E dry skip fs st = (st', r) →
  ∃ ls, out st' = out st ++ ls ∧
    match r with
    | None => omap subject ls = fs ∧ length ls = length fs
    | Some _ => omap subject ls `prefix_of` fs ∧ length ls = length (omap subject ls)
    end.
Proof.
  revert st. induction fs as [|f fs IH]; intros st; cbn [organise_files].
  - intros [= <- <-]. exists []. by rewrite app_nil_r.
  - destruct (organise_file E dry skip f st) as [st1 r1] eqn:Hbody.
    apply organise_file_line in Hbody. destruct r1 as [e|].
    + intros [= <- <-]. exists []. rewrite app_nil_r. split; [done|].
      split; [apply prefix_nil | done].
    + destruct Hbody as (l & Hout & Hl). intros (ls & Hout' & Hls)%IH.
      exists (l :: ls). split; [by rewrite Hout', Hout, <- app_assoc|].
      assert (omap subject (l :: ls) = f :: omap subject ls) as ->
        by (simpl; by rewrite Hl).
      destruct r as [e|].
      * destruct Hls as [Hp Hlen]. split; [by apply prefix_cons|].
        simpl. by rewrite Hlen.
      * destruct Hls as [-> Hlen]. simpl. by rewrite Hlen.
Qed.

End loop.

(** ** The whole call *)

Section call.

Context (E : environment).

Implicit Types (k c f : string) (v root : node) (es : entries) (st : state)
  (target : option node).

Lemma path_is_dir_listdir target :
  path_is_dir target = true ↔ is_Some (target ≫= listdir).
Proof.
  destruct target as [root|]; simpl.
  - symmetry. apply listdir_is_dir.
  - split; [done | by intros [? ?]].
Qed.

Lemma regular_files_listed es :
  NoDup es.*1 → NoDup (regular_files E es) ∧ listed (regular_files E es) es.
Proof.
  intros Hnd. split; [by apply NoDup_regular_files|].
  intros f (v & Hv & Hf)%elem_of_regular_files; [|done].
  exists v. split; [done | by eapply is_file_not_dir].
Qed.

(** The call on a directory that cannot be listed. *)
Lemma organise_folder_not_listed target dry skip why :
  path_is_dir target = true → refuses E Listdir = Some why →
  organise_folder E target dry skip =
    {| final := target; printed := []; raised := Some (OSError why) |}.
Proof. intros Hdir HE. unfold organise_folder. by rewrite Hdir, HE. Qed.

(** The call in terms of the loop.  The loop runs over the listing from
    the entries of the target, unless the listing is refused or the
    banner of the dry run cannot be printed; what is printed is what the
    loop has printed, between the banner and the last line. *)
Lemma organise_folder_spec root es dry skip :
  listdir root = Some es →
  let o := organise_folder E (Some root) dry skip in
  ∃ fs st0 st r,
    tree st0 = es ∧
    (out st0 = [] ∨ (dry = true ∧ out st0 = [DryRunBanner])) ∧
    organise_files E dry skip fs st0 = (st, r) ∧
    (fs = regular_files E es ∨ (fs = [] ∧ raised o ≠ None)) ∧
    (refuses E Listdir = None → dry = false → fs = regular_files E es) ∧
    final o = Some (with_entries root (tree st)) ∧
    (∃ tl, printed o = out st ++ tl ∧ omap subject tl = []) ∧
    (raised o = None → r = None) ∧
    (∀ e, r = Some e → raised o = Some e) ∧
    (∀ e, raised o = Some e →
       r = Some e ∨ e = UnicodeEncodeError ∨ ∃ why, e = OSError why).
Proof.
  intros Hroot o. subst o. unfold organise_folder, iterdir. simpl.
  rewrite (listdir_Some_is_dir _ _ Hroot), Hroot. simpl.
  pose proof (with_entries_id _ _ Hroot) as Hid.
  set (st0 := {| tree := es; out := [] |}).
  destruct (refuses E Listdir) as [why|] eqn:HE; simpl.
  { exists [], st0, st0, None. simpl. rewrite Hid.
    split_and!; try done;
      first [by left | by right | by (exists []; rewrite ?app_nil_r) | idtac].
    intros e [= <-]. right. right. by exists why. }
  destruct (regular_files E es) as [|f fs] eqn:Hfs.
  { destruct (say E NoFiles st0) as [st r] eqn:Hsay. simpl.
    exists [], st0, st0, None. rewrite (say_tree _ _ _ _ _ Hsay). simpl.
    pose proof (say_out _ _ _ _ _ Hsay) as Ho.
    split_and!; try done; try (by left).
    - destruct r; simpl in *; rewrite Ho;
        [by (exists []; rewrite ?app_nil_r) | by exists [NoFiles]].
    - intros e ->. right. by eapply say_raises. }
  set (all_files := f :: fs) in *.
  assert (all_files ≠ []) as Hne by done. clearbody all_files.
  destruct dry.
  - destruct (say E DryRunBanner st0) as [st1 [e|]] eqn:Hsay; cbn [and_then].
    { exists [], st1, st1, None. pose proof (say_tree _ _ _ _ _ Hsay) as Ht.
      pose proof (say_out _ _ _ _ _ Hsay) as Ho. simpl in Ht, Ho. simpl.
      rewrite Ht, Hid.
      split_and!; try done;
        first [by left | by right | by (exists []; rewrite ?app_nil_r) | idtac].
      intros e' [= <-]. right. by eapply say_raises. }
    pose proof (say_tree _ _ _ _ _ Hsay) as Ht.
    pose proof (say_out _ _ _ _ _ Hsay) as Ho. simpl in Ht, Ho.
    destruct (organise_files E true skip all_files st1) as [st [e|]] eqn:Hrun;
      cbn [and_then final printed raised].
    + exists all_files, st1, st, (Some e).
      split_and!; try done;
        first [by left | by right | by (exists []; rewrite ?app_nil_r)
              | by intros e' [= <-] | idtac].
    + exists all_files, st1, st, None.
      split_and!; try done;
        first [by left | by right | by (exists []; rewrite ?app_nil_r)].
  - cbn [and_then].
    destruct (organise_files E false skip all_files st0) as [st [e|]] eqn:Hrun;
      cbn [and_then final printed raised].
    + exists all_files, st0, st, (Some e).
      split_and!; try done;
        first [by left | by right | by (exists []; rewrite ?app_nil_r)
              | by intros e' [= <-] | idtac].
    + destruct (say E Done st) as [st' r'] eqn:Hsay.
      cbn [final printed raised].
      exists all_files, st0, st, None. rewrite (say_tree _ _ _ _ _ Hsay).
      pose proof (say_out _ _ _ _ _ Hsay) as Ho.
      split_and!; try done; try (by left).
      * destruct r'; simpl in *; rewrite Ho;
          [by (exists []; rewrite ?app_nil_r) | by exists [Done]].
      * intros e ->. right. by eapply say_raises.
Qed.

(** In a dry run the loop prints and does nothing else. *)
Lemma organise_file_dry_tree skip f st st' r :
  organise_file E true skip f st = (st', r) → tree st' = tree st.
Proof. unfold organise_file. apply say_tree. Qed.

Lemma organise_files_dry_tree skip fs st st' r :
  organise_files E true skip fs st = (st', r) → tree st' = tree st.
Proof.
  revert st. induction fs as [|f fs IH]; intros st; cbn [organise_files].
  - by intros [= <- <-].
  - destruct (organise_file E true skip f st) as [st1 [e|]] eqn:Hbody.
    + intros [= <- <-]. by eapply organise_file_dry_tree.
    + intros ->%IH. by eapply organise_file_dry_tree.
Qed.





(** The report follows the listing. *)
Lemma organise_folder_report target dry skip :
  let o := organise_folder E target dry skip in
  omap subject (printed o) `prefix_of` regular_files E (iterdir target) ∧
  (raised o = None →
   omap subject (printed o) = regular_files E (iterdir target)).
Proof.
  intros o. destruct (path_is_dir target) eqn:Hdir.
  2:{ subst o. unfold organise_folder. rewrite Hdir. simpl.
      split; [apply prefix_nil | done]. }
  destruct target as [root|]; [|done]. simpl in Hdir.
  apply listdir_is_dir in Hdir as [es Hroot].
  destruct (organise_folder_spec root es dry skip Hroot)
    as (fs & st0 & st & r & Ht & Ho & Hrun & Hfs & _ & _ & (tl & Hpr & Htl) & Hr & _ & _).
  fold o in Hfs, Hpr, Hr. unfold iterdir. simpl. rewrite Hroot. simpl.
  apply organise_files_lines in Hrun as (ls & Hout & Hls).
  assert (omap subject (printed o) = omap subject ls) as ->.
  { rewrite Hpr, Hout, !omap_app, Htl, app_nil_r.
    by destruct Ho as [->|[_ ->]]. }
  split.
  - assert (omap subject ls `prefix_of` fs) as Hp.
    { destruct r; destruct Hls as [Hls _]; [done | rewrite Hls; reflexivity]. }
    destruct Hfs as [->|[-> _]]; [done|].
    apply prefix_nil_inv in Hp as ->. apply prefix_nil.
  - intros Hnone. rewrite (Hr Hnone) in Hls. destruct Hls as [-> _].
    by destruct Hfs as [->|[_ ?]].
Qed.

End call.

(** *** The loop body on a file whose destination exists *)

Section conflicts.

Context (E : environment).

Implicit Types (k c f : string) (v root src old : node) (es : entries)
  (st : state) (fs pre post : list string).


Lemma dest_exists_None c k es : get2 c k es = None → dest_exists E c k es = false.
Proof. unfold dest_exists. by intros ->. Qed.

Lemma dest_exists_Some c k es :
  dest_exists E c k es = true → is_Some (get2 c k es).
Proof. unfold dest_exists. destruct (get2 c k es); [by eexists | done]. Qed.

Lemma mkdir_exist_ok_there c es d :
  get c es = Some (Dir d) → mkdir_exist_ok E c es = Ok es.
Proof. unfold mkdir_exist_ok. by intros ->. Qed.





(** The body moves a file whose destination is free, when the folder can
    be made and the move is not refused. *)
Lemma organise_file_moves skip f st st' src :
  let c := get_category_for_file f in
  get f (tree st) = Some src → is_dir src = false →
  get2 c f (tree st) = None →
  refuses E (Rename f c) = None →
  organise_file E false skip f st = (st', None) →
  get f (tree st') = None ∧ get2 c f (tree st') = Some src.
Proof.
  intros c Hsrc Hfile Hdest HEr. unfold organise_file. fold c.
  destruct (mkdir_exist_ok E c (tree st)) as [es1|e1] eqn:Hmk; [|done].
  assert (get2 c f es1 = None) as Hdest1.
  { apply mkdir_exist_ok_Ok in Hmk as [[-> _]|(-> & Hc & _)]; [done|].
    by rewrite get2_put_eq. }
  pose proof (mkdir_exist_ok_is_dir _ _ _ _ Hmk) as (dn & Hc1 & Hd1).
  destruct dn as [|d|]; try done.
  assert (get f es1 = Some src) as Hsrc1.
  { destruct (prepares_top _ f _ _ _ _ (mkdir_exist_ok_prepares _ _ f _ _ Hmk) Hsrc)
      as (w & Hw & K). by apply kept_not_dir in K as ->. }
  rewrite (dest_exists_None _ _ _ Hdest1). simpl.
  assert (∀ d', get f d ≠ Some (Dir d')) as Hfree.
  { intros d'. rewrite <- (get2_intro _ _ _ _ Hc1). by rewrite Hdest1. }
  rewrite (rename_goes E f c es1 src d HEr Hsrc1 Hc1 Hfree).
  intros Hafter. apply after_rename_tree in Hafter. rewrite Hafter.
  assert (moves c f es1 (put c (Dir (put f src d)) (remove f es1))) as Hmv.
  { by apply (moves_intro c f es1 src (Dir d) d). }
  split.
  - eapply moves_source_gone; [done|]. by exists src.
  - by eapply moves_dest.
Qed.

End conflicts.

Section conflicts_in_a_run.

Context (E : environment).

Implicit Types (k c f : string) (v root src old : node) (es : entries)
  (st : state) (fs pre post : list string).

Lemma split_listing es pre f post :
  NoDup es.*1 → regular_files E es = pre ++ f :: post →
  NoDup pre ∧ NoDup post ∧ (f ∉ pre) ∧ (f ∉ post) ∧
  (∀ g, g ∈ post → g ∉ pre) ∧
  listed pre es ∧ listed post es ∧ file_at f es.
Proof.
  intros Hnd Hlist. destruct (regular_files_listed E es Hnd) as [Hnd' Hl].
  rewrite Hlist in Hnd', Hl.
  apply NoDup_app in Hnd' as (Hpre & Hdisj & Hfpost).
  apply NoDup_cons in Hfpost as [Hf Hpost].
  split_and!; try done.
  - intros Hin. apply (Hdisj f Hin). by left.
  - intros g Hg Hin. apply (Hdisj g Hin). by right.
  - intros g Hg. apply Hl. apply elem_of_app. by left.
  - intros g Hg. apply Hl. apply elem_of_app. right. by right.
  - apply Hl. apply elem_of_app. right. by left.
Qed.

Lemma listed_after dry skip pre post st st' r :
  NoDup pre → listed pre (tree st) → (∀ g, g ∈ post → g ∉ pre) →
  organise_files E dry skip pre st = (st', r) →
  listed post (tree st) → listed post (tree st').
Proof.
  intros Hnd Hl Hdisj Hrun Hpost g Hg.
  eapply organise_files_file_at; [done | done | by apply Hdisj | done | by apply Hpost].
Qed.

End conflicts_in_a_run.

(** Where an exception of the loop body comes from in live mode: [mkdir],
    [unlink] after a successful [mkdir], or a [print]; what [rename]
    raises is caught. *)
Lemma organise_file_raised_from (E : environment) (skip : bool) (f : string)
    (st st' : state) (e : exn) :
  organise_file E false skip f st = (st', Some e) →
  let c := get_category_for_file f in
  mkdir_exist_ok E c (tree st) = Raise e ∨
  (∃ es1, mkdir_exist_ok E c (tree st) = Ok es1 ∧ unlink E c f es1 = Raise e) ∨
  (∃ l fault, stdout_raises E l = Some fault ∧ e = exn_of fault).
Proof.
  intros H c. unfold organise_file in H. cbv zeta in H. fold c in H.
  assert (∀ l st1, say E l st1 = (st', Some e) →
            ∃ l fault, stdout_raises E l = Some fault ∧ e = exn_of fault) as Hsay.
  { intros l st1. unfold say. destruct (stdout_raises E l) as [fault|] eqn:Hl; [|done].
    intros [= <- <-]. by exists l, fault. }
  assert (∀ es3, match stdout_raises E (Move f c) with
            | None => (print (Move f c) (set_tree es3 st), None)
            | Some (Broken e) => say E (ErrorMoving f (OSError e)) (set_tree es3 st)
            | Some Unencodable => (set_tree es3 st, Some UnicodeEncodeError)
            end = (st', Some e) →
            ∃ l fault, stdout_raises E l = Some fault ∧ e = exn_of fault) as Hmove.
  { intros es3. destruct (stdout_raises E (Move f c)) as [[|why]|] eqn:Hl.
    - intros [= <- <-]. by exists (Move f c), Unencodable.
    - apply Hsay.
    - done. }
  destruct (mkdir_exist_ok E c (tree st)) as [es1|e1]; [|left; congruence].
  destruct (dest_exists E c f es1 && skip); [right; right; by eapply Hsay|].
  destruct (dest_exists E c f es1).
  - destruct (unlink E c f es1) as [es2|e2] eqn:Hul.
    + destruct (rename E f c es2); right; right; [by eapply Hmove | by eapply Hsay].
    + right. left. exists es1. split; [done | congruence].
  - destruct (rename E f c es1); right; right; [by eapply Hmove | by eapply Hsay].
Qed.

(** A refused or failing [rename] is caught: the error is printed and the
    loop goes on with the next file. *)
Lemma organise_files_rename_caught (E : environment) (skip : bool) (f : string)
    (rest : list string) (st : state) (es1 : entries) (e : exn) :
  let c := get_category_for_file f in
  mkdir_exist_ok E c (tree st) = Ok es1 → dest_exists E c f es1 = false →
  rename E f c es1 = Raise e →
  stdout_raises E (ErrorMoving f e) = None →
  organise_files E false skip (f :: rest) st =
    organise_files E false skip rest (print (ErrorMoving f e) (set_tree es1 st)).
Proof.
  intros c Hmk Hex Hrn Hout. simpl. unfold organise_file. fold c.
  rewrite Hmk, Hex. simpl. rewrite Hrn. by rewrite say_prints.
Qed.

(** ** A second run *)

Section second_run.

Context (E : environment).
Hypothesis Hout : prints_all E.

Implicit Types (k c f g : string) (v root : node) (es : entries) (st : state)
  (fs kept rest : list string).

Lemma filter_ne_id f fs : f ∉ fs → filter (λ x, x ≠ f) fs = fs.
Proof.
  induction fs as [|x fs IH]; [done|]. intros [Hx Hfs]%not_elem_of_cons.
  rewrite filter_cons_True by congruence. by rewrite IH.
Qed.

Lemma filter_ne_middle f kept rest :
  f ∉ kept → f ∉ rest →
  filter (λ x, x ≠ f) (kept ++ f :: rest) = kept ++ rest.
Proof.
  intros Hk Hr. rewrite filter_app, filter_cons_False by (intros H; by apply H).
  by rewrite !filter_ne_id.
Qed.

(** On a quiet file the body prints one line and changes nothing. *)
Lemma quiet_body f st :
  plain (tree st) = true → quiet E f (tree st) →
  ∃ l, organise_file E false true f st = (print l st, None).
Proof.
  intros Hp [(dn & Hc & Hd) Hq]. unfold organise_file.
  destruct dn as [|d|]; try done.
  rewrite (mkdir_exist_ok_there _ _ _ _ Hc), set_tree_id.
  rewrite (dest_exists_plain _ _ _ _ Hp).
  destruct (get2 _ f (tree st)) as [old|] eqn:Hdest.
  - rewrite bool_decide_eq_true_2 by (by eexists). simpl.
    rewrite say_prints by apply Hout. by eexists.
  - rewrite bool_decide_eq_false_2 by (by intros [? ?]). simpl.
    destruct Hq as [[? ?]|[e He]]; [done|].
    unfold rename. rewrite He. rewrite set_tree_id.
    rewrite say_prints by apply Hout. by eexists.
Qed.

(** Work on another file leaves a quiet file quiet. *)
Lemma quiet_preserved f g st st' r :
  organise_file E false true f st = (st', r) → file_at f (tree st) → g ≠ f →
  quiet E g (tree st) → quiet E g (tree st').
Proof.
  intros Hbody Hf Hne [(dn & Hc & Hd) Hq]. split.
  - assert (get_category_for_file g ≠ f) as Hcf.
    { intros Heq. destruct Hf as (w & Hw & Hfile). rewrite Heq in Hc.
      rewrite Hc in Hw. injection Hw as <-. congruence. }
    destruct (organise_file_top E false true f _ dn st st' r Hbody Hcf Hc)
      as (dn' & Hc' & K).
    exists dn'. split; [done|]. by rewrite (kept_is_dir _ _ _ _ K).
  - destruct Hq as [Hex|HE]; [left | by right].
    by rewrite (organise_file_get2 E false true f _ g st st' r Hbody Hf (or_intror Hne)).
Qed.

(** Where every line is printed, a body that raises has raised in
    [mkdir]: it leaves the tree as it is, and raises again on the same
    tree. *)
Lemma raising_body f st st' e :
  organise_file E false true f st = (st', Some e) →
  tree st' = tree st ∧
  ∀ st2, tree st2 = tree st → organise_file E false true f st2 = (st2, Some e).
Proof.
  unfold organise_file.
  destruct (mkdir_exist_ok E _ (tree st)) as [es1|e1] eqn:Hmk.
  - destruct (dest_exists E _ f es1); simpl.
    { by rewrite say_prints by apply Hout. }
    destruct (rename E f _ es1).
    + by rewrite Hout.
    + by rewrite say_prints by apply Hout.
  - intros [= <- <-]. split; [done|]. intros st2 ->. by rewrite Hmk.
Qed.

(** A body that returns has moved its file or has left it quiet. *)
Lemma returning_body f st st' :
  organise_file E false true f st = (st', None) → file_at f (tree st) →
  files_of (tree st') = filter (λ x, x ≠ f) (files_of (tree st)) ∨
  (files_of (tree st') = files_of (tree st) ∧ quiet E f (tree st')).
Proof.
  intros Hbody Hf. unfold organise_file in Hbody.
  set (c := get_category_for_file f) in *.
  destruct (mkdir_exist_ok E c (tree st)) as [es1|e1] eqn:Hmk; [|done].
  pose proof (mkdir_exist_ok_is_dir _ _ _ _ Hmk) as Hdir.
  apply (mkdir_exist_ok_prepares _ _ f) in Hmk.
  pose proof (prepares_files_of _ _ _ _ Hmk) as Hfiles.
  pose proof (prepares_file_at _ _ f _ _ Hmk Hf) as (src & Hsrc & Hfile).
  destruct (dest_exists E c f es1) eqn:Hex; simpl in Hbody.
  { apply say_tree in Hbody. simpl in Hbody. rewrite Hbody.
    right. split; [done|]. split; [done|]. left. by eapply dest_exists_Some. }
  destruct (rename E f c es1) as [es3|e] eqn:Hrn.
  - left. apply after_rename_tree in Hbody. rewrite Hbody.
    apply rename_Ok in Hrn as [_ Hmv].
    by rewrite (moves_files_of _ _ _ _ Hmv), Hfiles.
  - apply say_tree in Hbody. simpl in Hbody. rewrite Hbody.
    right. split; [done|]. split; [done|]. right. fold c.
    unfold rename in Hrn. destruct (refuses E (Rename f c)) as [why|]; [by eexists|].
    exfalso. rewrite Hsrc in Hrn. destruct Hdir as (dn & Hc & Hd).
    rewrite Hc in Hrn. destruct dn as [|d|]; try done. simpl in Hrn.
    unfold dest_exists in Hex. rewrite (get2_intro _ _ _ _ Hc) in Hex.
    destruct (get f d) as [[]|]; done.
Qed.

Lemma first_run_settles rest : ∀ kept st st' r,
  NoDup (tree st).*1 → plain (tree st) = true →
  files_of (tree st) = kept ++ rest →
  (∀ g, g ∈ kept → quiet E g (tree st)) →
  organise_files E false true rest st = (st', r) →
  settled E (tree st') r ∧ plain (tree st') = true.
Proof.
  induction rest as [|f rest IH]; intros kept st st' r Hnd Hp Hlist Hquiet;
    cbn [organise_files].
  - intros [= <- <-]. split; [|done]. exists kept, []. done.
  - pose proof (NoDup_files_of _ Hnd) as Hnd'.
    assert (listed (kept ++ f :: rest) (tree st)) as Hl.
    { rewrite <- Hlist. intros g (w & Hw & Hreg)%elem_of_files_of; [|done].
      exists w. split; [done | by apply is_regular_not_dir]. }
    rewrite Hlist in Hnd'.
    apply NoDup_app in Hnd' as (Hkept & Hdisj & Hfrest).
    apply NoDup_cons in Hfrest as [Hf Hrest].
    assert (f ∉ kept) as Hfk by (intros Hin; apply (Hdisj f Hin); by left).
    assert (file_at f (tree st)) as Hfile.
    { apply Hl, elem_of_app. right. by left. }
    destruct (organise_file E false true f st) as [st1 r1] eqn:Hbody.
    destruct r1 as [e|].
    + intros [= <- <-]. apply raising_body in Hbody as [Htree Hagain].
      rewrite Htree. split; [|done].
      exists kept, (f :: rest). split_and!; [done | done |].
      exists f, rest. split; [done|]. intros st2 Hst2. by apply Hagain.
    + assert (∀ g, g ∈ kept → quiet E g (tree st1)) as Hquiet1.
      { intros g Hg. eapply quiet_preserved; [done | done | | by apply Hquiet].
        intros ->. done. }
      pose proof (organise_file_NoDup E false true f st st1 None Hbody Hnd) as Hnd1.
      pose proof (organise_file_plain E false true f st st1 None Hbody Hp) as Hp1.
      destruct (returning_body f st st1 Hbody Hfile) as [Hmoved|[Hsame Hq]].
      * apply (IH kept); [done | done | | done].
        by rewrite Hmoved, Hlist, filter_ne_middle.
      * apply (IH (kept ++ [f])); [done | done | |].
        -- by rewrite Hsame, Hlist, <- app_assoc.
        -- intros g [Hg|Hg]%elem_of_app; [by apply Hquiet1|].
           apply list_elem_of_singleton in Hg as ->. done.
Qed.

Lemma quiet_loop kept : ∀ st st' r,
  plain (tree st) = true →
  (∀ g, g ∈ kept → quiet E g (tree st)) →
  organise_files E false true kept st = (st', r) →
  tree st' = tree st ∧ r = None.
Proof.
  induction kept as [|g kept IH]; intros st st' r Hp Hq; cbn [organise_files].
  - by intros [= <- <-].
  - destruct (quiet_body g st Hp) as [l Hbody]; [apply Hq; by left|].
    rewrite Hbody. intros Hrun. apply IH in Hrun; [done | done |].
    intros g' Hg'. simpl. apply Hq. by right.
Qed.

Lemma second_run_is_idle es r st st' r' :
  settled E es r → plain es = true → tree st = es →
  organise_files E false true (files_of es) st = (st', r') →
  tree st' = es.
Proof.
  intros (kept & rest & Hlist & Hq & Hrest) Hp Hst.
  rewrite Hlist, organise_files_app.
  destruct (organise_files E false true kept st) as [st1 r1] eqn:Hrun1.
  apply quiet_loop in Hrun1 as [Ht ->]; [| by rewrite Hst | by rewrite Hst].
  destruct r as [e|].
  - destruct Hrest as (h & tl & -> & Hagain). cbn [organise_files].
    rewrite (Hagain st1) by congruence. intros [= <- <-]. congruence.
  - subst rest. simpl. intros [= <- <-]. congruence.
Qed.

End second_run.

(** ** More about the loop *)

Section more_frames.

Context (E : environment).

Implicit Types (k c f g : string) (v root src old : node) (es : entries)
  (st : state) (fs pre post : list string).


(** A top-level entry after a change was there before, or is the folder. *)
Lemma prepares_new_entry c f k v' es es' :
  prepares c f es es' → get k es' = Some v' →
  get k es = Some v' ∨ (k = c ∧ is_dir v' = true).
Proof.
  intros [es0|es0 Hc|es0 dn d Hc Hd] Hk; [by left | |].
  - destruct (decide (c = k)) as [->|Hne].
    + rewrite get_put_eq in Hk. injection Hk as <-. by right.
    + rewrite get_put_ne in Hk by done. by left.
  - destruct (decide (c = k)) as [->|Hne].
    + rewrite get_put_eq in Hk. injection Hk as <-. right. split; [done|].
      rewrite is_dir_with_entries. by eapply listdir_Some_is_dir.
    + rewrite get_put_ne in Hk by done. by left.
Qed.

Lemma moves_new_entry c f k v' es es' :
  moves c f es es' → get k es' = Some v' →
  get k es = Some v' ∨ (k = c ∧ is_dir v' = true).
Proof.
  intros [es0 src dn d Hf Hc Hd] Hk.
  destruct (decide (c = k)) as [->|Hne].
  - rewrite get_put_eq in Hk. injection Hk as <-. right. split; [done|].
    rewrite is_dir_with_entries. by eapply listdir_Some_is_dir.
  - rewrite get_put_ne in Hk by done. left.
    destruct (decide (f = k)) as [->|Hfk].
    + by rewrite get_remove_eq in Hk.
    + by rewrite get_remove_ne in Hk.
Qed.

Lemma organise_file_new_entry dry skip f k v' st st' r :
  organise_file E dry skip f st = (st', r) → get k (tree st') = Some v' →
  get k (tree st) = Some v' ∨ (k ∈ folder_names ∧ is_dir v' = true).
Proof.
  intros (es1 & es2 & H1 & H2 & H3)%organise_file_tree Hk.
  assert (get k es2 = Some v' ∨ (k ∈ folder_names ∧ is_dir v' = true)) as [Hk2|?];
    [|  | by right].
  { destruct H3 as [<-|H3]; [by left|].
    destruct (moves_new_entry _ _ _ _ _ _ H3 Hk) as [?|[-> ?]]; [by left|].
    right. split; [apply category_in_folder_names | done]. }
  destruct (prepares_new_entry _ _ _ _ _ _ H2 Hk2) as [Hk1|[-> ?]].
  2:{ right. split; [apply category_in_folder_names | done]. }
  destruct (prepares_new_entry _ _ _ _ _ _ H1 Hk1) as [?|[-> ?]]; [by left|].
  right. split; [apply category_in_folder_names | done].
Qed.

Lemma mkdir_exist_ok_get2 c c' k es es1 :
  mkdir_exist_ok E c es = Ok es1 → get2 c' k es1 = get2 c' k es.
Proof.
  intros [[-> _]|(-> & Hc & _)]%mkdir_exist_ok_Ok; [done|].
  destruct (decide (c = c')) as [<-|Hne]; [|by apply get2_put_ne].
  rewrite get2_put_eq. unfold get2. by rewrite Hc.
Qed.

(** The lines of a pass name the folder of its file. *)
Lemma organise_file_line_form dry skip f st st' :
  organise_file E dry skip f st = (st', None) →
  let c := get_category_for_file f in
  ∃ l, out st' = out st ++ [l] ∧
    (l = Preview f c ∨ l = SkipExists f c ∨ l = Move f c ∨ ∃ e, l = ErrorMoving f e).
Proof.
  intros H c. unfold organise_file in H. fold c in H.
  assert (∀ l st1, out st1 = out st → say E l st1 = (st', None) →
            out st' = out st ++ [l]) as Hsay.
  { intros l st1 <- Hs. by apply say_out in Hs. }
  destruct dry.
  { eexists. split; [eapply Hsay; [|exact H]; done | by left]. }
  destruct (mkdir_exist_ok E c (tree st)) as [es1|e]; [|done].
  destruct (dest_exists E c f es1 && skip).
  { eexists. split; [eapply Hsay; [|exact H]; done | right; by left]. }
  destruct (if dest_exists E c f es1 then _ else _) as [es2|e]; [|done].
  destruct (rename E f c es2).
  - destruct (stdout_raises E (Move f c)) as [[|e]|]; [done | |].
    + eexists. split; [eapply Hsay; [|exact H]; done | right; right; right; by eexists].
    + injection H as <-. eexists. split; [done | right; right; by left].
  - eexists. split; [eapply Hsay; [|exact H]; done | right; right; right; by eexists].
Qed.

Lemma organise_files_line_forms dry skip fs g st st' :
  organise_files E dry skip fs st = (st', None) → g ∈ fs →
  let c := get_category_for_file g in
  ∃ l, l ∈ out st' ∧
    (l = Preview g c ∨ l = SkipExists g c ∨ l = Move g c ∨ ∃ e, l = ErrorMoving g e).
Proof.
  intros Hrun Hg c. revert st Hrun.
  induction fs as [|f fs IH]; intros st; cbn [organise_files];
    [by apply elem_of_nil in Hg|].
  destruct (organise_file E dry skip f st) as [st1 [e|]] eqn:Hbody; [done|].
  intros Hrun. apply elem_of_cons in Hg as [->|Hg].
  - apply organise_file_line_form in Hbody as (l & Ho & Hl).
    apply organise_files_out in Hrun as (ls & Hout & _).
    exists l. split; [|done]. rewrite Hout, Ho, !elem_of_app.
    left. right. by apply list_elem_of_singleton.
  - by apply (IH Hg st1).
Qed.

End more_frames.

Section whole_run.

Context (E : environment).

Implicit Types (k c f g : string) (v root src old : node) (es : entries)
  (st : state) (fs pre post : list string).

Lemma organise_files_keeps_file dry skip fs f src st st' r :
  NoDup fs → listed fs (tree st) →
  get f (tree st) = Some src → is_dir src = false →
  organise_files E dry skip fs st = (st', r) →
  get f (tree st') = Some src ∨
  get2 (get_category_for_file f) f (tree st') = Some src.
Proof.
  intros Hnd Hl Hsrc Hnotdir Hrun.
  destruct (decide (f ∈ fs)) as [Hin|Hnin].
  2:{ left. destruct (organise_files_top E dry skip fs f src st st' r
                        Hnd Hl Hnin Hrun Hsrc) as (v' & Hv' & K).
      by apply kept_by_run_not_dir in K as ->. }
  apply list_elem_of_split in Hin as (pre & post & ->).
  apply NoDup_app in Hnd as (Hpre & Hdisj & Hfpost).
  apply NoDup_cons in Hfpost as [Hfpost Hpost].
  assert (f ∉ pre) as Hfpre by (intros Hin; apply (Hdisj f Hin); by left).
  assert (listed pre (tree st)) as Hlpre.
  { intros g Hg. apply Hl, elem_of_app. by left. }
  rewrite organise_files_split in Hrun.
  destruct (organise_files E dry skip pre st) as [st1 r1] eqn:Hrun1.
  destruct (organise_files_top E dry skip pre f src st st1 r1
              Hpre Hlpre Hfpre Hrun1 Hsrc) as (v1 & Hv1 & K1).
  apply kept_by_run_not_dir in K1 as ->; [|done].
  destruct r1 as [e|]; [injection Hrun as <- <-; by left|].
  destruct (organise_file E dry skip f st1) as [st2 r2] eqn:Hbody.
  assert (listed post (tree st2)) as Hlpost.
  { intros g Hg. eapply (organise_file_file_at E dry skip f g st1); [done | |].
    - intros ->. done.
    - eapply (organise_files_file_at E dry skip pre g st st1); [done | done | | done |].
      + intros Hin. apply (Hdisj g Hin). by right.
      + apply Hl, elem_of_app. right. by right. }
  pose proof Hbody as (es1 & es2 & H1 & H2 & H3)%organise_file_tree.
  destruct (prepares_top _ _ _ _ _ _ H1 Hv1) as (w1 & Hw1 & Kw1).
  apply kept_not_dir in Kw1 as ->; [|done].
  destruct (prepares_top _ _ _ _ _ _ H2 Hw1) as (w2 & Hw2 & Kw2).
  apply kept_not_dir in Kw2 as ->; [|done].
  destruct H3 as [Htree|Hmv].
  - rewrite <- Htree in Hw2. destruct r2 as [e|]; [injection Hrun as <- <-; by left|].
    left. destruct (organise_files_top E dry skip post f src st2 st' r
                      Hpost Hlpost Hfpost Hrun Hw2) as (v' & Hv' & K).
    by apply kept_by_run_not_dir in K as ->.
  - right. assert (get2 (get_category_for_file f) f (tree st2) = Some src) as Hd2
      by (by eapply moves_dest).
    destruct r2 as [e|]; [by injection Hrun as <- <-|].
    by rewrite (organise_files_get2 E dry skip post _ f st2 st' r
                  Hpost Hlpost Hfpost Hrun).
Qed.


Lemma organise_files_new_entries dry skip fs es0 st st' r :
  NoDup fs → listed fs (tree st) →
  (∀ k w, get k (tree st) = Some w →
     is_Some (get k es0) ∨ (k ∈ folder_names ∧ is_dir w = true)) →
  organise_files E dry skip fs st = (st', r) →
  ∀ k w, get k (tree st') = Some w →
    is_Some (get k es0) ∨ (k ∈ folder_names ∧ is_dir w = true).
Proof.
  intros Hnd Hl H0 Hrun.
  eapply (organise_files_preserves E dry skip
            (λ es, ∀ k w, get k es = Some w →
               is_Some (get k es0) ∨ (k ∈ folder_names ∧ is_dir w = true)) fs);
    [done | | done | exact H0 | done].
  intros g st1 st1' r1 _ _ H1 Hbody k w Hw.
  destruct (organise_file_new_entry E dry skip g k w st1 st1' r1 Hbody Hw)
    as [Hold|?]; [by apply H1 | by right].
Qed.

(** What the folders hold after the loop: what they held, and files of
    the list that were classified into them. *)
Lemma organise_files_filled dry skip fs st st' r :
  NoDup fs → listed fs (tree st) →
  organise_files E dry skip fs st = (st', r) →
  ∀ k n w, get2 k n (tree st') = Some w →
    get2 k n (tree st) = Some w ∨
    (n ∈ fs ∧ get_category_for_file n = k ∧ get n (tree st) = Some w).
Proof.
  intros Hnd Hl Hrun.
  set (es0 := tree st).
  pose (Φ := λ es : entries,
          (∀ g w, get g es = Some w → is_dir w = false → get g es0 = Some w) ∧
          (∀ k n w, get2 k n es = Some w →
             get2 k n es0 = Some w ∨
             (n ∈ fs ∧ get_category_for_file n = k ∧ get n es0 = Some w))).
  assert (Φ (tree st')) as [_ H]; [|exact H].
  eapply (organise_files_preserves E dry skip Φ fs); [done | | done | | done].
  - intros g st1 st1' r1 Hg (src & Hsrc & Hsd) [Φ1 Φ2] Hbody. split.
    + intros g' w Hw Hwd.
      destruct (organise_file_new_entry E dry skip g g' w st1 st1' r1 Hbody Hw)
        as [Hold|[_ ?]]; [by apply Φ1 | congruence].
    + intros k n w Hw.
      destruct (decide (k = get_category_for_file g ∧ n = g)) as [[-> ->]|Hne].
      * destruct (organise_file_dest E dry skip g src st1 st1' r1 Hbody Hsrc Hsd)
          as [Heq|[Heq|Heq]]; rewrite Heq in Hw.
        -- by apply Φ2.
        -- done.
        -- injection Hw as <-. right. split_and!; [done | done | by apply Φ1].
      * rewrite (organise_file_get2 E dry skip g k n st1 st1' r1 Hbody) in Hw.
        -- by apply Φ2.
        -- by exists src.
        -- destruct (decide (k = get_category_for_file g)); [|by left].
           right. intros ->. by apply Hne.
  - split; [done|]. intros k n w Hw. by left.
Qed.

(** Where no link has the name of a folder, the loop stays in the model. *)
Lemma organise_file_not_through dry skip f st st' e :
  (∀ k t, get k (tree st) = Some (Link t) → k ∉ folder_names) →
  organise_file E dry skip f st = (st', Some e) → e ≠ ThroughLink.
Proof.
  intros Hlinks Hbody.
  destruct dry.
  { unfold organise_file in Hbody.
    apply say_raises in Hbody as [->|[why ->]]; done. }
  apply organise_file_raised_from in Hbody
    as [Hmk|[(es1 & _ & Hul)|(l & fault & _ & ->)]].
  - intros ->. apply mkdir_exist_ok_through in Hmk as [t Ht].
    apply (Hlinks _ _ Ht), category_in_folder_names.
  - pose proof (unlink_Raise _ _ _ _ _ Hul) as [(_ & ? & _)|Hnone]; [done|].
    intros ->. unfold unlink in Hul.
    destruct (get _ es1) as [dn|]; [|done]. simpl in Hnone.
    by rewrite Hnone in Hul.
  - by destruct fault.
Qed.

Lemma organise_files_not_through dry skip fs st st' e :
  (∀ k t, get k (tree st) = Some (Link t) → k ∉ folder_names) →
  organise_files E dry skip fs st = (st', Some e) → e ≠ ThroughLink.
Proof.
  revert st. induction fs as [|f fs IH]; intros st Hlinks; cbn [organise_files];
    [done|].
  destruct (organise_file E dry skip f st) as [st1 [e1|]] eqn:Hbody.
  - intros [= <- <-]. by eapply organise_file_not_through.
  - apply IH. intros k t Hk.
    destruct (organise_file_new_entry E dry skip f k _ st st1 None Hbody Hk)
      as [Hold|[_ ?]]; [by eapply Hlinks | done].
Qed.

(** A pass that returns, with [skip_existing], in a directory without
    links: the file stays exactly when its destination exists or its move
    is refused. *)
Lemma returning_body_listing f st st' :
  organise_file E false true f st = (st', None) → file_at f (tree st) →
  plain (tree st) = true →
  files_of (tree st') =
    if stays E (tree st) f then files_of (tree st)
    else filter (λ x, x ≠ f) (files_of (tree st)).
Proof.
  intros Hbody Hf Hp. unfold organise_file in Hbody. unfold stays.
  set (c := get_category_for_file f) in *.
  destruct (mkdir_exist_ok E c (tree st)) as [es1|e1] eqn:Hmk; [|done].
  pose proof (mkdir_exist_ok_is_dir _ _ _ _ Hmk) as Hdir.
  assert (plain es1 = true) as Hp1.
  { eapply prepares_plain; [|exact Hp]. by eapply (mkdir_exist_ok_prepares _ _ f). }
  assert (dest_exists E c f es1 = dest_exists E c f (tree st)) as Hsame.
  { rewrite (dest_exists_plain _ _ _ _ Hp1), (dest_exists_plain _ _ _ _ Hp).
    by rewrite (mkdir_exist_ok_get2 _ _ _ _ _ _ Hmk). }
  apply (mkdir_exist_ok_prepares _ _ f) in Hmk.
  pose proof (prepares_files_of _ _ _ _ Hmk) as Hfiles.
  pose proof (prepares_file_at _ _ f _ _ Hmk Hf) as (src & Hsrc & Hfile).
  rewrite <- Hsame.
  destruct (dest_exists E c f es1) eqn:Hex; simpl in Hbody.
  { apply say_tree in Hbody. simpl in Hbody. by rewrite Hbody. }
  simpl. destruct (rename E f c es1) as [es3|e] eqn:Hrn.
  - apply after_rename_tree in Hbody. rewrite Hbody.
    apply rename_Ok in Hrn as [HE Hmv]. rewrite HE.
    rewrite bool_decide_eq_false_2 by (by intros [? ?]).
    by rewrite (moves_files_of _ _ _ _ Hmv), Hfiles.
  - apply say_tree in Hbody. simpl in Hbody. rewrite Hbody.
    unfold rename in Hrn. destruct (refuses E (Rename f c)) as [why|] eqn:HE.
    { by rewrite bool_decide_eq_true_2 by (by eexists). }
    exfalso. rewrite Hsrc in Hrn. destruct Hdir as (dn & Hc & Hd).
    rewrite Hc in Hrn. destruct dn as [|d|]; try done. simpl in Hrn.
    unfold dest_exists in Hex. rewrite (get2_intro _ _ _ _ Hc) in Hex.
    destruct (get f d) as [[]|]; done.
Qed.

Lemma leftovers_loop es0 rest : ∀ done st st',
  NoDup (tree st).*1 → plain (tree st) = true → plain es0 = true →
  files_of (tree st) = filter (λ f, stays E es0 f) done ++ rest →
  (∀ g, g ∈ rest → stays E (tree st) g = stays E es0 g) →
  organise_files E false true rest st = (st', None) →
  files_of (tree st') = filter (λ f, stays E es0 f) (done ++ rest) ∧
  plain (tree st') = true.
Proof.
  induction rest as [|f rest IH]; intros done st st' Hnd Hp Hp0 Hlist Hsame;
    cbn [organise_files].
  - intros [= <-]. by rewrite Hlist, !app_nil_r.
  - pose proof (NoDup_files_of _ Hnd) as Hnd'.
    assert (listed (filter (λ f, stays E es0 f) done ++ f :: rest) (tree st)) as Hl.
    { rewrite <- Hlist. intros g (w & Hw & Hreg)%elem_of_files_of; [|done].
      exists w. split; [done | by apply is_regular_not_dir]. }
    rewrite Hlist in Hnd'.
    apply NoDup_app in Hnd' as (Hkept & Hdisj & Hfrest).
    apply NoDup_cons in Hfrest as [Hf Hrest].
    assert (f ∉ filter (λ f, stays E es0 f) done) as Hfk
      by (intros Hin; apply (Hdisj f Hin); by left).
    assert (file_at f (tree st)) as Hfile.
    { apply Hl, elem_of_app. right. by left. }
    destruct (organise_file E false true f st) as [st1 r1] eqn:Hbody.
    destruct r1 as [e|]; [done|]. intros Hrun.
    pose proof (returning_body_listing f st st1 Hbody Hfile Hp) as Hfiles.
    rewrite (Hsame f) in Hfiles by (by left).
    pose proof (organise_file_NoDup E false true f st st1 None Hbody Hnd) as Hnd1.
    pose proof (organise_file_plain E false true f st st1 None Hbody Hp) as Hp1.
    replace (done ++ f :: rest) with ((done ++ [f]) ++ rest)
      by (by rewrite <- app_assoc).
    apply (IH (done ++ [f]) st1 st'); [done | done | done | | | done].
    + rewrite Hfiles, Hlist. rewrite (filter_app _ done [f]).
      destruct (stays E es0 f) eqn:Hst.
      * rewrite (filter_cons_True _ f []) by (by rewrite Hst).
        by rewrite filter_nil, <- app_assoc.
      * rewrite (filter_cons_False _ f []) by (rewrite Hst; intros []).
        rewrite filter_nil, app_nil_r. by apply filter_ne_middle.
    + intros g Hg. rewrite <- (Hsame g) by (by right). unfold stays.
      rewrite !dest_exists_plain by done.
      rewrite (organise_file_get2 E false true f _ g st st1 None Hbody Hfile); [done|].
      right. intros ->. done.
Qed.

End whole_run.

(** ** The target after the call *)

Section after_the_call.

Context (E : environment).

Implicit Types (k c f : string) (v root src old : node) (es : entries)
  (st : state) (fs pre post : list string).

(** The call as a loop over listed files, with the entries it leaves. *)
Lemma organise_folder_loop root es dry skip :
  listdir root = Some es → NoDup es.*1 →
  let o := organise_folder E (Some root) dry skip in
  ∃ fs st0 st r,
    tree st0 = es ∧ NoDup fs ∧ listed fs es ∧
    (∀ f, f ∈ fs → f ∈ regular_files E es) ∧
    organise_files E dry skip fs st0 = (st, r) ∧
    (∀ k, final_entry o k = get k (tree st)) ∧
    (∀ c k, final_dest o c k = get2 c k (tree st)) ∧
    (refuses E Listdir = None → dry = false →
     fs = regular_files E es ∧ st0 = {| tree := es; out := [] |}) ∧
    (raised o = None → r = None ∧ fs = regular_files E es) ∧
    (∀ l, l ∈ out st → l ∈ printed o) ∧
    (∀ e, r = Some e → raised o = Some e) ∧
    (∀ e, raised o = Some e →
       r = Some e ∨ e = UnicodeEncodeError ∨ ∃ why, e = OSError why).
Proof.
  intros Hroot Hnd o.
  destruct (organise_folder_spec E root es dry skip Hroot)
    as (fs & st0 & st & r & Ht & Ho & Hrun & Hfs & Hlive & Hfinal &
        (tl & Hpr & Htl) & Hr & He & Hfrom).
  fold o in Hfs, Hfinal, Hpr, Hr, He, Hfrom.
  destruct (regular_files_listed E es Hnd) as [Hnd' Hl].
  exists fs, st0, st, r. split_and!; try done.
  - destruct Hfs as [->|[-> _]]; [done | apply NoDup_nil_2].
  - destruct Hfs as [->|[-> _]]; [done | by intros f ?%elem_of_nil].
  - destruct Hfs as [->|[-> _]]; [done | by intros f ?%elem_of_nil].
  - intros k. unfold final_entry. rewrite Hfinal. simpl.
    by rewrite (listdir_with_entries _ _ (listdir_Some_is_dir _ _ Hroot)).
  - intros c k. unfold final_dest. rewrite Hfinal. simpl.
    by rewrite (listdir_with_entries _ _ (listdir_Some_is_dir _ _ Hroot)).
  - intros HE ->. split; [by apply Hlive|].
    destruct Ho as [Ho|[? _]]; [|done]. destruct st0. simpl in *. by subst.
  - intros Hnone. split; [by apply Hr|]. by destruct Hfs as [->|[_ ?]].
  - intros l Hin. rewrite Hpr. apply elem_of_app. by left.
Qed.

Lemma dry_run_final target skip :
  final (organise_folder E target true skip) = target.
Proof.
  destruct (path_is_dir target) eqn:Hdir.
  2:{ unfold organise_folder. by rewrite Hdir. }
  destruct target as [root|]; [|done]. simpl in Hdir.
  apply listdir_is_dir in Hdir as [es Hroot].
  destruct (organise_folder_spec E root es true skip Hroot)
    as (fs & st0 & st & r & Ht & _ & Hrun & _ & _ & -> & _).
  apply organise_files_dry_tree in Hrun. rewrite Hrun, Ht.
  by rewrite (with_entries_id _ _ Hroot).
Qed.

(** No file or link is lost. *)
Lemma run_keeps_file root es dry skip f src :
  listdir root = Some es → NoDup es.*1 →
  get f es = Some src → is_dir src = false →
  let o := organise_folder E (Some root) dry skip in
  final_entry o f = Some src ∨
  final_dest o (get_category_for_file f) f = Some src.
Proof.
  intros Hroot Hnd Hsrc Hfile o.
  destruct (organise_folder_loop root es dry skip Hroot Hnd)
    as (fs & st0 & st & r & <- & Hnd' & Hl & _ & Hrun & -> & Hdest & _).
  rewrite Hdest.
  by eapply (organise_files_keeps_file E dry skip fs f src st0 st r).
Qed.





(** The run on a file or link whose destination is free and whose move
    is not refused: a run that returns has moved it. *)
Lemma moving_run root es skip f src :
  let c := get_category_for_file f in
  listdir root = Some es → NoDup es.*1 →
  f ∈ regular_files E es → get f es = Some src →
  get2 c f es = None → refuses E (Rename f c) = None →
  let o := organise_folder E (Some root) false skip in
  raised o = None →
  final_dest o c f = Some src ∧
  (∀ v', final_entry o f = Some v' → is_dir v' = true).
Proof.
  intros c Hroot Hnd Hin Hsrc Hdest HEr o Hnone.
  destruct (organise_folder_loop root es false skip Hroot Hnd)
    as (fs & st0 & st & r & <- & _ & _ & _ & Hrun & Hentry & Hfdest & _ & Hret & _).
  fold o in Hentry, Hfdest, Hret. destruct (Hret Hnone) as [-> ->].
  apply list_elem_of_split in Hin as (pre & post & Hlist).
  destruct (split_listing E _ pre f post Hnd Hlist)
    as (Hpre & Hpost & Hfpre & Hfpost & Hdisj & Hlpre & Hlpost & (w & Hw & Hfile)).
  assert (w = src) as -> by congruence.
  rewrite Hlist, organise_files_split in Hrun.
  destruct (organise_files E false skip pre st0) as [st1 [e|]] eqn:Hrun1; [done|].
  destruct (organise_file E false skip f st1) as [st2 [e|]] eqn:Hbody; [done|].
  pose proof (organise_files_top E false skip pre f src st0 st1 None
                Hpre Hlpre Hfpre Hrun1 Hsrc) as (v1 & Hv1 & K1).
  apply kept_by_run_not_dir in K1 as ->; [|done].
  pose proof (organise_files_get2 E false skip pre c f st0 st1 None
                Hpre Hlpre Hfpre Hrun1) as Hd1.
  rewrite Hdest in Hd1.
  destruct (organise_file_moves E skip f st1 st2 src Hv1 Hfile Hd1 HEr Hbody)
    as [Hgone Hthere].
  assert (listed post (tree st2)) as Hlpost2.
  { intros g Hg. eapply (organise_file_file_at E false skip f g st1); [done | |].
    - intros ->. done.
    - by eapply (listed_after E false skip pre post st0 st1). }
  split.
  - rewrite Hfdest.
    by rewrite (organise_files_get2 E false skip post c f st2 st None
                  Hpost Hlpost2 Hfpost Hrun).
  - intros v'. rewrite Hentry.
    apply (organise_files_no_file E false skip post f st2 st None
             Hpost Hlpost2 Hrun). intros v. by rewrite Hgone.
Qed.

End after_the_call.

(** ** The table of any configuration *)

Section table_for_any_configuration.

Implicit Types (cfg : configuration) (ext c : string) (exts : list string).

Lemma occurrences_nil c exts ext :
  occurrences c exts ext = [] ↔ ext ∉ lower <$> exts.
Proof.
  unfold occurrences. induction exts as [|x exts IH]; csimpl.
  - split; [intros _; apply not_elem_of_nil | done].
  - rewrite filter_cons, not_elem_of_cons.
    destruct (decide (lower x = ext)) as [Heq|Hne]; csimpl.
    + split; [done | intros [? _]; congruence].
    + rewrite IH. split; [intros ?; split; [congruence | done] | by intros [_ ?]].
Qed.

Lemma occurrences_elem c c' exts ext : c' ∈ occurrences c exts ext → c' = c.
Proof.
  unfold occurrences. intros (x & -> & _)%list_elem_of_fmap. done.
Qed.

Lemma declarations_of_claimers cfg ext :
  (declarations cfg ext = [] ↔ claimers cfg ext = []) ∧
  (length (claimers cfg ext) ≤ length (declarations cfg ext))%nat ∧
  (∀ c, c ∈ declarations cfg ext → c ∈ claimers cfg ext).
Proof.
  unfold declarations, claimers. induction cfg as [|[c exts] cfg IH]; csimpl.
  - split_and!; [done | done | by intros c ?%elem_of_nil].
  - destruct IH as (IH1 & IH2 & IH3). rewrite filter_cons.
    pose proof (occurrences_nil c exts ext) as Hnil.
    destruct (decide (claims_ext ext (c, exts))) as [Hin|Hnin];
      unfold claims_ext in *; csimpl in *.
    + destruct (occurrences c exts ext) as [|o os] eqn:Hocc.
      { exfalso. by apply (proj1 Hnil). }
      split_and!.
      * split; intros H; discriminate H.
      * simpl. rewrite length_app. lia.
      * intros c' [Hc'|Hc']%elem_of_app.
        -- rewrite <- Hocc in Hc'. apply occurrences_elem in Hc' as ->. by left.
        -- right. by apply IH3.
    + rewrite (proj2 Hnil Hnin). simpl. done.
Qed.

End table_for_any_configuration.

(** ** The task list *)

Section task_list.

Implicit Types (s : store) (t : task) (ts : list task) (id : nat).

Lemma complete_in_found id ts :
  (complete_in id ts).1 = true ↔ id ∈ task_id <$> ts.
Proof.
  induction ts as [|t ts IH]; simpl.
  - split; [done | by intros ?%elem_of_nil].
  - destruct (Nat.eqb_spec (task_id t) id) as [Heq|Hne]; simpl.
    + split; [intros _; rewrite Heq; by left | done].
    + destruct (complete_in id ts) as [found ts'] eqn:Hc. simpl in *.
      rewrite IH. split; [by right|].
      intros [?|?]%elem_of_cons; [congruence | done].
Qed.

Lemma complete_in_missing id ts :
  (complete_in id ts).1 = false → (complete_in id ts).2 = ts.
Proof.
  induction ts as [|t ts IH]; simpl; [done|].
  destruct (task_id t =? id)%nat; simpl; [done|].
  destruct (complete_in id ts) as [found ts'] eqn:Hc. simpl in *.
  intros Hf. by rewrite IH.
Qed.

Lemma complete_in_shape id ts :
  Forall2 (λ t t', task_id t' = task_id t ∧ task_text t' = task_text t ∧
                   (task_completed t = true → task_completed t' = true) ∧
                   (task_id t ≠ id → t' = t))
    ts (complete_in id ts).2.
Proof.
  induction ts as [|t ts IH]; simpl; [constructor|].
  destruct (Nat.eqb_spec (task_id t) id) as [Heq|Hne]; simpl.
  - constructor; [done|]. apply Forall2_same_length_lookup. split; [done|].
    intros i x y Hx Hy. assert (x = y) as -> by congruence. done.
  - destruct (complete_in id ts) as [found ts'] eqn:Hc. simpl in *.
    by constructor.
Qed.

Lemma complete_in_twice id ts :
  (complete_in id (complete_in id ts).2).2 = (complete_in id ts).2.
Proof.
  induction ts as [|t ts IH]; simpl; [done|].
  destruct (Nat.eqb_spec (task_id t) id) as [Heq|Hne]; simpl.
  - by rewrite Heq, Nat.eqb_refl.
  - destruct (complete_in id ts) as [found ts'] eqn:Hc. simpl in *.
    apply Nat.eqb_neq in Hne. rewrite Hne.
    destruct (complete_in id ts') as [found' ts''] eqn:Hc'. simpl in *.
    by rewrite IH.
Qed.

Lemma complete_in_unique id ts :
  NoDup (task_id <$> ts) →
  (complete_in id ts).2 =
    (λ t, if (task_id t =? id)%nat then mark t else t) <$> ts.
Proof.
  induction ts as [|t ts IH]; csimpl; [done|].
  intros [Hnin Hnd]%NoDup_cons.
  destruct (Nat.eqb_spec (task_id t) id) as [Heq|Hne]; simpl.
  - f_equal. symmetry. etrans; [|apply list_fmap_id].
    apply list_fmap_ext. intros i t' Ht'.
    destruct (Nat.eqb_spec (task_id t') id) as [Heq'|]; [|done].
    exfalso. apply Hnin. rewrite Heq, <- Heq'.
    apply list_elem_of_fmap. exists t'. split; [done|].
    by eapply list_elem_of_lookup_2.
  - destruct (complete_in id ts) as [found ts'] eqn:Hc. simpl in *.
    by rewrite IH.
Qed.

(** Stripping. *)

Lemma lstrip_head (x : string) :
  lstrip x = "" ∨ ∃ c r, lstrip x = String c r ∧ is_space c = false.
Proof.
  induction x as [|c r IH]; simpl; [by left|].
  destruct (is_space c) eqn:Hc; [done|]. right. eauto.
Qed.

Lemma rstrip_head c r :
  is_space c = false → ∃ r', rstrip (String c r) = String c r'.
Proof. intros Hc. simpl. rewrite Hc. destruct (rstrip r); eauto. Qed.

Lemma rstrip_twice (x : string) : rstrip (rstrip x) = rstrip x.
Proof.
  induction x as [|c r IH]; simpl; [done|].
  destruct (rstrip r) as [|c' r'] eqn:Hr.
  - destruct (is_space c) eqn:Hc; simpl; [done | by rewrite Hc].
  - simpl in *. by rewrite IH.
Qed.

Lemma strip_twice (x : string) : strip (strip x) = strip x.
Proof.
  unfold strip. destruct (lstrip_head x) as [->|(c & r & -> & Hc)]; [done|].
  destruct (rstrip_head c r Hc) as [r' Hr']. rewrite Hr'. simpl lstrip.
  rewrite Hc. by rewrite <- Hr', rstrip_twice.
Qed.

End task_list.

Section task_list_requests.

Implicit Types (s : store) (t : task) (ts : list task) (id : nat)
  (r : request) (rs : list request).

Lemma complete_task_fst id s : (complete_task id s).1 = (complete_in id (tasks s)).1.
Proof. unfold complete_task. by destruct (complete_in id (tasks s)). Qed.

Lemma complete_task_tasks id s :
  tasks (complete_task id s).2 = (complete_in id (tasks s)).2.
Proof. unfold complete_task. by destruct (complete_in id (tasks s)). Qed.

Lemma complete_task_next_id id s : next_id (complete_task id s).2 = next_id s.
Proof. unfold complete_task. by destruct (complete_in id (tasks s)). Qed.

Lemma complete_in_ids id ts : task_id <$> (complete_in id ts).2 = task_id <$> ts.
Proof.
  induction ts as [|t ts IH]; csimpl; [done|].
  destruct (task_id t =? id)%nat; csimpl; [done|].
  destruct (complete_in id ts) as [found ts'] eqn:Hc. csimpl in *. by rewrite IH.
Qed.

Lemma complete_in_texts id ts :
  task_text <$> (complete_in id ts).2 = task_text <$> ts.
Proof.
  induction ts as [|t ts IH]; csimpl; [done|].
  destruct (task_id t =? id)%nat; csimpl; [done|].
  destruct (complete_in id ts) as [found ts'] eqn:Hc. csimpl in *. by rewrite IH.
Qed.

Lemma complete_in_length id ts : length (complete_in id ts).2 = length ts.
Proof.
  rewrite <- (length_fmap task_id), complete_in_ids. apply length_fmap.
Qed.

Lemma complete_in_keeps id ts : keeps ts (complete_in id ts).2.
Proof.
  intros i t Ht.
  destruct (Forall2_lookup_l _ _ _ i t (complete_in_shape id ts) Ht)
    as (t' & Ht' & Hid & Htext & Hdone & _).
  eauto.
Qed.

Lemma complete_in_fresh id ts t :
  id ∉ task_id <$> ts → task_id t = id →
  complete_in id (ts ++ [t]) = (true, ts ++ [mark t]).
Proof.
  intros Hnin Ht. induction ts as [|t0 ts IH]; csimpl.
  - by rewrite Ht, Nat.eqb_refl.
  - rewrite fmap_cons in Hnin. apply not_elem_of_cons in Hnin as [Hne Hnin].
    destruct (Nat.eqb_spec (task_id t0) id) as [Heq|_]; [congruence|].
    by rewrite IH.
Qed.

Lemma keeps_refl ts : keeps ts ts.
Proof. intros i t Ht. eauto. Qed.

Lemma keeps_trans ts1 ts2 ts3 : keeps ts1 ts2 → keeps ts2 ts3 → keeps ts1 ts3.
Proof.
  intros H12 H23 i t Ht.
  destruct (H12 i t Ht) as (t2 & Ht2 & Hid & Htext & Hdone).
  destruct (H23 i t2 Ht2) as (t3 & Ht3 & Hid' & Htext' & Hdone').
  exists t3. split_and!; [done | congruence | congruence | auto].
Qed.

Lemma keeps_app ts ts' : keeps ts (ts ++ ts').
Proof. intros i t Ht. exists t. split; [by apply lookup_app_l_Some | done]. Qed.

Lemma handle_keeps s r : keeps (tasks s) (tasks (handle s r)).
Proof.
  destruct r as [|form_text|id]; simpl.
  - apply keeps_refl.
  - unfold add. case_decide; [apply keeps_refl | apply keeps_app].
  - unfold complete. rewrite complete_task_tasks. apply complete_in_keeps.
Qed.

Lemma foldl_handle_keeps rs s : keeps (tasks s) (tasks (foldl handle s rs)).
Proof.
  revert s. induction rs as [|r rs IH]; intros s; simpl; [apply keeps_refl|].
  eapply keeps_trans; [apply handle_keeps | apply IH].
Qed.

Lemma serve_app rs rs' : serve (rs ++ rs') = foldl handle (serve rs) rs'.
Proof. unfold serve. apply foldl_app. Qed.

(** Numbered from one, without gaps. *)
Lemma handle_numbered s r :
  task_id <$> tasks s = seq 1 (length (tasks s)) →
  next_id s = S (length (tasks s)) →
  task_id <$> tasks (handle s r) = seq 1 (length (tasks (handle s r))) ∧
  next_id (handle s r) = S (length (tasks (handle s r))).
Proof.
  intros Hids Hnext. destruct r as [|form_text|id]; simpl; [done | |].
  - unfold add. case_decide; [done|]. simpl.
    rewrite fmap_app, length_app, Hids, Hnext. simpl.
    rewrite Nat.add_1_r, seq_S. split; [done | lia].
  - unfold complete. rewrite complete_task_tasks, complete_task_next_id.
    by rewrite complete_in_ids, complete_in_length.
Qed.

Lemma handle_clean s r :
  Forall clean (tasks s) → Forall clean (tasks (handle s r)).
Proof.
  intros Hs. destruct r as [|form_text|id]; simpl; [done | |].
  - unfold add. case_decide as Hempty; [done|]. simpl.
    apply Forall_app. split; [done|]. apply Forall_singleton.
    split; [done | apply strip_twice].
  - unfold complete. rewrite complete_task_tasks.
    apply Forall_lookup. intros i t' Ht'.
    assert (i < length (tasks s)) as Hi.
    { rewrite <- (complete_in_length id). by eapply lookup_lt_Some. }
    apply lookup_lt_is_Some in Hi as [t Ht].
    destruct (complete_in_keeps id _ i t Ht) as (t2 & Ht2 & _ & Htext & _).
    assert (t2 = t') as -> by congruence.
    pose proof (Forall_lookup_1 _ _ _ _ Hs Ht) as [Hne Hstrip].
    split; by rewrite Htext.
Qed.

End task_list_requests.

(** * Part IV: the claims *)

(** C1 as the specification words it fails on a configuration in which
    one category lists an extension twice (here in two spellings):
    exactly one category claims [".png"], yet the table built by lines
    43-52 maps it to ["Others"], because the loop appends one name per
    declaration and the comprehension counts the names. *)
Lemma C1_repeated_extension_goes_to_Others :
  ¬ maps_by_claimers [("Images", [".png"; ".PNG"])] ".png".
Proof.
  intros [H _]. specialize (H "Images" eq_refl). vm_compute in H. discriminate.
Qed.

(** C1, amended: on every configuration in which no category lists the
    same extension twice (up to case), as in the shipped [CATEGORIES], an
    extension that exactly one category claims maps to that category, and
    an extension that more than one category claims maps to ["Others"]. *)
Theorem C1_table_without_repeats (cfg : configuration) (ext : string) :
  Forall (λ entry, NoDup (lower <$> entry.2)) cfg →
  maps_by_claimers cfg ext.
Proof.
  intros Hnd. destruct (build_table_claimers cfg ext Hnd) as (H1 & H2 & _).
  by split.
Qed.

(** The theorem of C1 at the shipped configuration: [.py] is claimed by
    Code alone, and no extension of the shipped table is claimed twice. *)
Lemma C1_shipped_table :
  maps_by_claimers CATEGORIES ".py" ∧
  claimers CATEGORIES ".py" = ["Code"] ∧
  EXTENSION_TO_CATEGORY !! ".py" = Some "Code".
Proof.
  split; [|split; by vm_compute].
  apply (C1_table_without_repeats CATEGORIES ".py").
  apply (bool_decide_unpack _). by vm_compute.
Defined.

(** C2, on a directory that holds the regular files [Others] and [a.png]
    (in either enumeration order), live mode: [mkdir] of the category
    folder [Others] raises [FileExistsError], nothing catches it, and the
    call ends with that exception; with [Others] first, [a.png] is never
    looked at.  The same happens when [unlink] fails: with a directory at
    the destination and [skip_existing=False] the call ends with
    [IsADirectoryError] and [b.txt] is never looked at. *)
Theorem C2_failure_outside_rename_aborts :
  let o1 := organise_folder no_faults
              (Some (Dir [("Others", File "x"); ("a.png", File "y")])) false true in
  let o2 := organise_folder no_faults
              (Some (Dir [("a.png", File "y"); ("Others", File "x")])) false true in
  let o3 := organise_folder no_faults
              (Some (Dir [("a.png", File "new"); ("b.txt", File "t");
                          ("Images", Dir [("a.png", Dir [])])])) false false in
  (raised o1 = Some FileExistsError ∧ printed o1 = [] ∧
   final o1 = Some (Dir [("Others", File "x"); ("a.png", File "y")])) ∧
  (raised o2 = Some FileExistsError ∧ printed o2 = [Move "a.png" "Images"]) ∧
  (raised o3 = Some IsADirectoryError ∧ printed o3 = [] ∧
   final_entry o3 "b.txt" = Some (File "t")).
Proof. by vm_compute. Qed.

(** C3: a dry run performs no file system mutation.  Whatever the target
    path names (a directory, something else, nothing) and whatever the
    flags, what it names after [organise_folder(..., dry_run=True)] is what
    it named before: same entries, same contents, no directory created. *)
Theorem C3_dry_run_changes_nothing (E : environment) (target : option node)
    (skip_existing : bool) :
  final (organise_folder E target true skip_existing) = target.
Proof. apply dry_run_final. Qed.

(** C4 as the specification words it fails where a folder holds a
    symbolic link into the target directory: [Images/y.png] is a link to
    [../x.png].  The first run skips [y.png], whose destination exists
    through the link, and moves [x.png]; the link now dangles, and the
    second run moves [y.png] onto it. *)
Lemma C4_link_into_the_directory :
  ¬ second_run_changes_nothing relative_links
      (Some (Dir [("y.png", File "Y"); ("x.png", File "X");
                  ("Images", Dir [("y.png", Link "../x.png")])])).
Proof. intros H. vm_compute in H. discriminate. Qed.

(** C4, amended: in a target directory that holds no symbolic link,
    neither itself nor in its folders, and in which no two entries share a
    name, on a stdout that takes every line, running the organiser a
    second time with [skip_existing=True] on what the first run has left
    changes nothing: the tree after two runs is the tree after one, also
    when the first run raises.  The environment refuses the same calls in
    both runs. *)
Theorem C4_second_run_changes_nothing (E : environment) (target : option node) :
  NoDup (iterdir target).*1 → plain (iterdir target) = true → prints_all E →
  second_run_changes_nothing E target.
Proof.
  intros Hnd Hp Hout. unfold second_run_changes_nothing.
  destruct (path_is_dir target) eqn:Hdir.
  2:{ unfold organise_folder. rewrite Hdir. simpl. by rewrite Hdir. }
  destruct target as [root|]; [|done]. simpl in Hdir.
  apply listdir_is_dir in Hdir as Hroot. destruct Hroot as [es Hroot].
  unfold iterdir in Hnd, Hp. simpl in Hnd, Hp. rewrite Hroot in Hnd, Hp.
  simpl in Hnd, Hp.
  destruct (refuses E Listdir) as [why|] eqn:HE.
  { rewrite (organise_folder_not_listed E (Some root) false true why Hdir HE).
    simpl. by rewrite (organise_folder_not_listed E (Some root) false true why Hdir HE). }
  set (st0 := {| tree := es; out := [] |}).
  destruct (organise_files E false true (regular_files E es) st0) as [st r] eqn:Hrun.
  destruct (organise_folder_spec E root es false true Hroot)
    as (fs & st0' & st' & r' & Ht & Ho & Hrun' & _ & Hfs & Hfinal & _).
  rewrite (Hfs HE eq_refl) in Hrun'.
  assert (st0' = st0) as ->.
  { destruct Ho as [Ho|[? _]]; [|done]. destruct st0'. simpl in *. by subst. }
  rewrite Hrun in Hrun'. injection Hrun' as <- <-. rewrite Hfinal.
  rewrite (regular_files_plain E es Hp) in Hrun.
  destruct (first_run_settles E Hout (files_of es) [] st0 st r Hnd Hp eq_refl)
    as [Hsettled Hp']; [by intros g ?%elem_of_nil | done |].
  assert (listdir (with_entries root (tree st)) = Some (tree st)) as Hroot'
    by (by apply listdir_with_entries).
  destruct (organise_folder_spec E _ (tree st) false true Hroot')
    as (fs2 & st02 & st2 & r2 & Ht2 & Ho2 & Hrun2 & _ & Hfs2 & Hfinal2 & _).
  rewrite Hfinal2, with_entries_twice. f_equal. f_equal.
  rewrite (Hfs2 HE eq_refl), (regular_files_plain E _ Hp') in Hrun2.
  by eapply (second_run_is_idle E Hout (tree st) r st02 st2 r2).
Qed.

(** The theorem of C4 at a directory whose first run skips one file, moves
    one and then raises on the file called [Others]. *)
Lemma C4_two_runs_of_a_mixed_folder :
  let target := Some (Dir [("a.png", File "new"); ("notes.txt", File "n");
                           ("Others", File "o"); ("z.mp3", File "z");
                           ("Images", Dir [("a.png", File "old")])]) in
  let once := organise_folder no_faults target false true in
  let twice := organise_folder no_faults (final once) false true in
  raised once = Some FileExistsError ∧
  final_entry once "z.mp3" = Some (File "z") ∧
  final twice = final once.
Proof.
  intros target once twice. split; [reflexivity|]. split; [reflexivity|].
  apply (C4_second_run_changes_nothing no_faults target).
  - apply (bool_decide_unpack _). by vm_compute.
  - reflexivity.
  - intros l. reflexivity.
Defined.

(** A second run also changes the tree where the first run was ended by
    a line that stdout could not take: the first run moves [a.png] and
    raises [UnicodeEncodeError] on printing the move, the second run
    moves [b.txt]. *)
Example second_run_after_a_lost_line :
  let target := Some (Dir [("a.png", File "A"); ("b.txt", File "B")]) in
  let once := organise_folder ascii_stdout target false true in
  let twice := organise_folder ascii_stdout (final once) false true in
  raised once = Some UnicodeEncodeError ∧
  final once = Some (Dir [("b.txt", File "B"); ("Images", Dir [("a.png", File "A")])]) ∧
  final twice = Some (Dir [("Images", Dir [("a.png", File "A")]);
                           ("Documents", Dir [("b.txt", File "B")])]).
Proof. by vm_compute. Qed.

(** C5 as the specification words it fails on a symbolic link to a regular
    file: the link is reported and moved like a file. *)
Lemma C5_link_to_file_is_moved :
  ¬ links_and_dirs_left_alone links_to_files
      [("a.png", Link "/srv/pictures/a.png")] false true.
Proof.
  intros H.
  destruct (H "a.png" (Link "/srv/pictures/a.png") eq_refl eq_refl) as [_ Hk].
  vm_compute in Hk. discriminate.
Qed.

(** C5, amended.  In a target directory in which no symbolic link has the
    name of a category folder, the run never goes through a link, and:

    - every immediate child that [is_file()] rejects (a directory, a link
      that does not resolve to a regular file) is left out: no printed
      line is about it, and at the end it is still in the target
      directory under its name; it is unchanged unless it is a directory
      named like a category folder, and then every entry it holds was in
      it before or is a listed child classified into it;
    - every immediate child that [is_file()] accepts, a link to a regular
      file included, is in the list of files to organise; when the call
      returns, one of the printed lines is the preview, skip, move or
      error line of that child with its category; and in live mode, if
      nothing is at its destination and its move is not refused, the
      child itself (for a link: the link) is at its destination afterwards
      and no file or link of its name is left in the target directory. *)
Theorem C5_only_files_are_organised (E : environment) (root : node)
    (es : entries) (dry_run skip_existing : bool) :
  listdir root = Some es → NoDup es.*1 → no_linked_folder es →
  let o := organise_folder E (Some root) dry_run skip_existing in
  raised o ≠ Some ThroughLink ∧
  (∀ k v, get k es = Some v → is_file E es k v = false →
     (∀ l, l ∈ printed o → subject l ≠ Some k) ∧
     ∃ v', final_entry o k = Some v' ∧
       (is_dir v = false → v' = v) ∧
       (k ∉ folder_names → v' = v) ∧
       (∀ d, v = Dir d → ∃ d', v' = Dir d' ∧ filled_from E es k d d')) ∧
  (∀ g w, get g es = Some w → is_file E es g w = true →
     let c := get_category_for_file g in
     g ∈ regular_files E es ∧
     (raised o = None →
      (∃ l, l ∈ printed o ∧
         (l = Preview g c ∨ l = SkipExists g c ∨ l = Move g c ∨
          ∃ e, l = ErrorMoving g e)) ∧
      (dry_run = false → get2 c g es = None → refuses E (Rename g c) = None →
       final_dest o c g = Some w ∧
       ∀ v', final_entry o g = Some v' → is_dir v' = true))).
Proof.
  intros Hroot Hnd Hlinks o.
  destruct (organise_folder_loop E root es dry_run skip_existing Hroot Hnd)
    as (fs & st0 & st & r & Ht & Hnd' & Hl & Hsub & Hrun & Hentry & Hdest & _ &
        Hret & Hprinted & _ & Hfrom).
  fold o in Hentry, Hdest, Hret, Hprinted, Hfrom.
  pose proof (organise_folder_report E (Some root) dry_run skip_existing)
    as [Hprefix _].
  fold o in Hprefix. unfold iterdir in Hprefix. simpl in Hprefix.
  rewrite Hroot in Hprefix. simpl in Hprefix.
  split; [|split].
  - intros Hthrough. destruct (Hfrom _ Hthrough) as [->|[?|[? ?]]]; [|done|done].
    eapply (organise_files_not_through E dry_run skip_existing fs st0 st);
      [|done|done].
    rewrite Ht. intros k t Hk. by eapply no_linked_folder_get.
  - intros k v Hk Hv.
    assert (k ∉ regular_files E es) as Hnot.
    { intros (w & Hw & Hf)%elem_of_regular_files; [|done]. congruence. }
    assert (k ∉ fs) as Hnotfs by (intros Hin; by apply Hnot, Hsub).
    split.
    + intros l Hin Hs. apply Hnot.
      eapply elem_of_prefix; [|exact Hprefix].
      apply list_elem_of_omap. by exists l.
    + rewrite <- Ht in Hk, Hl.
      destruct (organise_files_top E dry_run skip_existing fs k v st0 st r
                  Hnd' Hl Hnotfs Hrun Hk) as (v' & Hv' & Hkept).
      exists v'. rewrite Hentry. split_and!; [done | | |].
      * intros Hd. by eapply kept_by_run_not_dir.
      * intros Hd. by eapply kept_by_run_other.
      * intros d ->.
        assert (∃ d', v' = Dir d') as [d' ->].
        { destruct Hkept as [->|(_ & _ & d' & ->)]; by eexists. }
        exists d'. split; [done|]. intros n w Hw.
        pose proof (organise_files_filled E dry_run skip_existing fs st0 st r
                      Hnd' Hl Hrun k n w) as Hfilled.
        rewrite (get2_intro _ _ _ _ Hv'), (get2_intro _ _ _ _ Hk) in Hfilled.
        destruct (Hfilled Hw) as [?|(Hn & Hc & Hsrc)]; [by left|].
        right. rewrite Ht in Hsrc. split_and!; [by apply Hsub | done | done].
  - intros g w Hg Hw c.
    assert (g ∈ regular_files E es) as Hin.
    { apply elem_of_regular_files; [done|]. by exists w. }
    split; [done|]. intros Hnone. destruct (Hret Hnone) as [-> ->]. split.
    + destruct (organise_files_line_forms E dry_run skip_existing _ g st0 st
                  Hrun Hin) as (l & Hl' & Hform).
      exists l. split; [by apply Hprinted | done].
    + intros -> Hfree HEr.
      by apply (moving_run E root es skip_existing g w).
Qed.

(** The theorem of C5 at a directory with a link to a file, a
    subdirectory and a regular file: the subdirectory stays as it is, the
    link and the file are moved. *)
Lemma C5_link_and_subdirectory :
  let es := [("a.png", Link "/srv/pictures/a.png");
             ("sub", Dir [("x.txt", File "X")]); ("b.txt", File "B")] in
  let o := organise_folder links_to_files (Some (Dir es)) false true in
  final_entry o "sub" = Some (Dir [("x.txt", File "X")]) ∧
  (∃ v', final_entry o "sub" = Some v' ∧ v' = Dir [("x.txt", File "X")]) ∧
  final_dest o "Images" "a.png" = Some (Link "/srv/pictures/a.png") ∧
  raised o ≠ Some ThroughLink.
Proof.
  intros es o. split; [reflexivity|].
  destruct (C5_only_files_are_organised links_to_files (Dir es) es false true)
    as (H0 & H1 & H2).
  - reflexivity.
  - apply (bool_decide_unpack _). by vm_compute.
  - apply (bool_decide_unpack _). by vm_compute.
  - split; [|split; [|exact H0]].
    + destruct (H1 "sub" (Dir [("x.txt", File "X")]) eq_refl eq_refl)
        as (_ & v' & Hv' & _ & Hother & _).
      exists v'. split; [exact Hv'|]. apply Hother.
      apply (bool_decide_unpack _). by vm_compute.
    + destruct (H2 "a.png" (Link "/srv/pictures/a.png") eq_refl eq_refl)
        as (_ & Hmoved).
      destruct (Hmoved eq_refl) as (_ & Hdest).
      exact (proj1 (Hdest eq_refl eq_refl eq_refl)).
Defined.

(** C6 as the specification words it fails on a name whose only dot is its
    first character: [".py"] has no extension for the code and goes to
    ["Others"], although the text after its last dot is a declared
    extension. *)
Lemma C6_leading_dot_is_not_an_extension : ¬ uses_text_after_last_dot ".py".
Proof. intros [H _]. vm_compute in H. discriminate. Qed.

(** C6, amended: the category of a name is what the table holds for the
    lower-cased [Path.suffix] of the name, ["Others"] if it holds nothing.
    For a name [pre.ext] with [pre] and [ext] not empty and no dot in
    [ext], the suffix is [.ext], the text from the last dot on, and the
    category is looked up under it: a name whose extension the table
    knows gets the category of the table.  A name without a dot, a name
    whose only dot is its first character and a name that ends with its
    last dot have the empty suffix; and a name whose suffix is empty or
    not in the table is classified as ["Others"]. *)
Theorem C6_extension_of_a_name (name : string) :
  get_category_for_file name =
    default OTHERS (EXTENSION_TO_CATEGORY !! lower (suffix name)) ∧
  (∀ pre ext, name = pre +:+ String "." ext →
     pre ≠ "" → ext ≠ "" → rfind "." ext = None →
     suffix name = String "." ext ∧ uses_text_after_last_dot name ∧
     ∀ c, EXTENSION_TO_CATEGORY !! lower (String "." ext) = Some c →
       get_category_for_file name = c) ∧
  (rfind "." name = None →
     suffix name = "" ∧ get_category_for_file name = "Others") ∧
  (∀ rest, name = String "." rest → rfind "." rest = None →
     suffix name = "" ∧ get_category_for_file name = "Others") ∧
  (∀ pre, name = pre +:+ "." →
     suffix name = "" ∧ get_category_for_file name = "Others") ∧
  (suffix name = "" → get_category_for_file name = "Others") ∧
  (EXTENSION_TO_CATEGORY !! lower (suffix name) = None →
     get_category_for_file name = "Others").
Proof.
  split_and!.
  - done.
  - intros pre ext -> Hpre Hext Hdot.
    pose proof (suffix_inner_dot _ _ Hpre Hext Hdot) as Hs.
    assert (ext_after_last_dot (pre +:+ String "." ext) = String "." ext) as Hlast.
    { unfold ext_after_last_dot. rewrite (rfind_app_dot _ _ Hdot).
      by rewrite slice_from_app. }
    split_and!.
    + done.
    + split; [by rewrite Hs, Hlast|]. unfold get_category_for_file.
      by rewrite Hs, Hlast.
    + intros c Hc. unfold get_category_for_file. by rewrite Hs, Hc.
  - intros Hdot. pose proof (suffix_no_dot _ Hdot) as Hs.
    split; [done | by apply category_of_empty_suffix].
  - intros rest -> Hdot. pose proof (suffix_leading_dot _ Hdot) as Hs.
    split; [done | by apply category_of_empty_suffix].
  - intros pre ->.
    assert (suffix (pre +:+ ".") = "") as Hs.
    { unfold suffix. rewrite (rfind_app_dot pre "" eq_refl).
      rewrite length_app_string. simpl String.length.
      replace (String.length pre <? String.length pre + 1 - 1)%nat with false; [|symmetry; apply Nat.ltb_ge; lia].
      by rewrite andb_false_r. }
    split; [done | by apply category_of_empty_suffix].
  - apply category_of_empty_suffix.
  - apply category_of_unknown_suffix.
Qed.








(** C10: a name that begins with a dot and has no other dot has the empty
    extension and is classified as ["Others"], also when the whole name
    is a declared extension. *)
Theorem C10_dot_file_goes_to_Others (rest : string) :
  rfind "." rest = None →
  suffix (String "." rest) = "" ∧
  get_category_for_file (String "." rest) = "Others".
Proof.
  intros Hdot. pose proof (suffix_leading_dot rest Hdot) as Hs.
  split; [done | by apply category_of_empty_suffix].
Qed.

(** The theorem of C10 at [.py], which the table declares for Code. *)
Lemma C10_dot_py :
  EXTENSION_TO_CATEGORY !! ".py" = Some "Code" ∧
  suffix ".py" = "" ∧ get_category_for_file ".py" = "Others".
Proof.
  split; [by vm_compute|]. apply (C10_dot_file_goes_to_Others "py"). reflexivity.
Defined.

(** * Part V: further properties *)

(** ** The organiser *)

(** X1: no regular file is lost.  In a target directory in which no
    symbolic link has the name of a category folder, whatever the flags,
    the refusals of the environment, the lines stdout takes and the way
    the call ends, every regular file of the target directory is
    afterwards either still there, unchanged, or at its destination
    [category/name], unchanged. *)
Theorem X1_no_file_is_lost (E : environment) (root : node) (es : entries)
    (dry_run skip_existing : bool) (f : string) (data : string) :
  listdir root = Some es → NoDup es.*1 → no_linked_folder es →
  get f es = Some (File data) →
  let o := organise_folder E (Some root) dry_run skip_existing in
  raised o ≠ Some ThroughLink ∧
  (final_entry o f = Some (File data) ∨
   final_dest o (get_category_for_file f) f = Some (File data)).
Proof.
  intros Hroot Hnd Hlinks Hsrc o. split.
  - destruct (organise_folder_loop E root es dry_run skip_existing Hroot Hnd)
      as (fs & st0 & st & r & Ht & _ & _ & _ & Hrun & _ & _ & _ & _ & _ & _ & Hfrom).
    fold o in Hfrom. intros Hthrough.
    destruct (Hfrom _ Hthrough) as [->|[?|[? ?]]]; [|done|done].
    eapply (organise_files_not_through E dry_run skip_existing fs st0 st);
      [|done|done].
    rewrite Ht. intros k t Hk. by eapply no_linked_folder_get.
  - by apply (run_keeps_file E root es dry_run skip_existing f (File data)).
Qed.

(** The theorem of X1 at a directory in which one file is moved and one is
    held back by a conflict. *)
Lemma X1_two_files :
  let es := [("a.png", File "new"); ("b.txt", File "t");
             ("Images", Dir [("a.png", File "old")])] in
  let o := organise_folder no_faults (Some (Dir es)) false true in
  (final_entry o "b.txt" = Some (File "t") ∨
   final_dest o (get_category_for_file "b.txt") "b.txt" = Some (File "t")) ∧
  final_entry o "b.txt" = None ∧
  final_entry o "a.png" = Some (File "new").
Proof.
  intros es o. split; [|split; reflexivity].
  apply (X1_no_file_is_lost no_faults (Dir es) es false true "b.txt" "t").
  - reflexivity.
  - apply (bool_decide_unpack _). by vm_compute.
  - apply (bool_decide_unpack _). by vm_compute.
  - reflexivity.
Defined.



(** X3: the call creates nothing in the target directory but category
    folders: every entry that is there after the call was there before
    under the same name, or is a directory with one of the eight folder
    names. *)
Theorem X3_only_category_folders_are_created (E : environment) (root : node)
    (es : entries) (dry_run skip_existing : bool) (k : string) (v' : node) :
  listdir root = Some es → NoDup es.*1 →
  final_entry (organise_folder E (Some root) dry_run skip_existing) k = Some v' →
  is_Some (get k es) ∨ (k ∈ folder_names ∧ is_dir v' = true).
Proof.
  intros Hroot Hnd.
  destruct (organise_folder_loop E root es dry_run skip_existing Hroot Hnd)
    as (fs & st0 & st & r & Ht & Hnd' & Hl & _ & Hrun & -> & _).
  rewrite <- Ht in Hl.
  apply (organise_files_new_entries E dry_run skip_existing fs es st0 st r
           Hnd' Hl); [|done].
  intros k0 w Hw. left. rewrite Ht in Hw. by eexists.
Qed.

(** The theorem of X3 at the folder a run makes for a picture. *)
Lemma X3_new_Images_folder :
  let es := [("a.png", File "A")] in
  let o := organise_folder no_faults (Some (Dir es)) false true in
  get "Images" es = None ∧
  (is_Some (get "Images" es) ∨
   ("Images" ∈ folder_names ∧ is_dir (Dir [("a.png", File "A")]) = true)).
Proof.
  intros es o. split; [reflexivity|].
  apply (X3_only_category_folders_are_created no_faults (Dir es) es false true
           "Images" (Dir [("a.png", File "A")])).
  - reflexivity.
  - apply (bool_decide_unpack _). by vm_compute.
  - reflexivity.
Defined.

(** X4: the report.  The files the printed lines are about are, in
    enumeration order, a prefix of the regular files of the target; when
    the call returns without exception there is exactly one line about
    each regular file, in enumeration order. *)
Theorem X4_one_line_per_file (E : environment) (target : option node)
    (dry_run skip_existing : bool) :
  let o := organise_folder E target dry_run skip_existing in
  omap subject (printed o) `prefix_of` regular_files E (iterdir target) ∧
  (raised o = None →
   omap subject (printed o) = regular_files E (iterdir target)).
Proof. apply organise_folder_report. Qed.


(** X6: what a live run with [skip_existing=True] leaves behind in a
    target directory that holds no symbolic link, neither itself nor in
    its folders.  When the call returns without exception, the regular
    files still in the target directory are, in their old order, exactly
    those whose destination existed before the call or whose move the
    environment refuses; all others have been moved. *)
Theorem X6_what_stays_behind (E : environment) (root : node) (es : entries) :
  listdir root = Some es → NoDup es.*1 → plain es = true →
  raised (organise_folder E (Some root) false true) = None →
  ∃ es', final (organise_folder E (Some root) false true)
           = Some (with_entries root es') ∧
    regular_files E es' = filter (λ f, stays E es f) (regular_files E es).
Proof.
  intros Hroot Hnd Hp Hnone.
  destruct (organise_folder_spec E root es false true Hroot)
    as (fs & st0 & st & r & Ht & _ & Hrun & Hfs & _ & Hfinal & _ & Hr & _).
  rewrite (Hr Hnone) in Hrun.
  destruct Hfs as [->|[_ ?]]; [|done].
  exists (tree st). split; [done|].
  rewrite (regular_files_plain E es Hp) in *.
  destruct (leftovers_loop E es (files_of es) [] st0 st) as [Hfiles Hp'];
    try done; try (by rewrite Ht).
  by rewrite (regular_files_plain E _ Hp').
Qed.

(** The theorem of X6 at a directory with a conflict and two free files. *)
Lemma X6_conflict_stays :
  let es := [("a.png", File "new"); ("b.txt", File "t"); ("c", File "c");
             ("Images", Dir [("a.png", File "old")])] in
  let o := organise_folder no_faults (Some (Dir es)) false true in
  filter (λ f, stays no_faults es f) (regular_files no_faults es) = ["a.png"] ∧
  ∃ es', final o = Some (Dir es') ∧
    regular_files no_faults es' =
      filter (λ f, stays no_faults es f) (regular_files no_faults es).
Proof.
  intros es o. split; [reflexivity|].
  apply (X6_what_stays_behind no_faults (Dir es) es).
  - reflexivity.
  - apply (bool_decide_unpack _). by vm_compute.
  - reflexivity.
  - reflexivity.
Defined.

(** ** The classification *)

(** X7: the builder on any configuration.  An extension is a key of the
    table exactly when some category lists it (up to case); an extension
    that more than one category lists maps to ["Others"]; and whatever an
    extension maps to is ["Others"] or a category that lists it. *)
Theorem X7_table_of_any_configuration (cfg : configuration) (ext : string) :
  (build_table cfg !! ext = None ↔ claimers cfg ext = []) ∧
  (1 < length (claimers cfg ext) → build_table cfg !! ext = Some OTHERS) ∧
  (∀ c, build_table cfg !! ext = Some c → c = OTHERS ∨ c ∈ claimers cfg ext).
Proof.
  rewrite build_table_lookup.
  destruct (declarations_of_claimers cfg ext) as (Hnil & Hlen & Hin).
  destruct (declarations cfg ext) as [|d ds] eqn:Hd.
  - split_and!.
    + split; [intros _; by apply Hnil | done].
    + intros Hmany. rewrite (proj1 Hnil eq_refl) in Hmany. simpl in Hmany. lia.
    + done.
  - split_and!.
    + split; [done|]. intros Hc. apply Hnil in Hc. discriminate Hc.
    + intros Hmany. destruct ds as [|d' ds]; [simpl in Hlen; lia | done].
    + intros c [= <-]. destruct ds as [|d' ds]; [|by left].
      right. apply Hin. by left.
Qed.

(** X8: on a configuration in which no category lists an extension twice
    (up to case), an extension that exactly one category lists maps to that
    category. *)
Theorem X8_single_claimer_wins (cfg : configuration) (ext c : string) :
  Forall (λ entry, NoDup (lower <$> entry.2)) cfg →
  claimers cfg ext = [c] →
  build_table cfg !! ext = Some c.
Proof.
  intros Hnd Hc. rewrite build_table_lookup, (declarations_claimers _ _ Hnd).
  by rewrite Hc.
Qed.

(** The theorem of X8 at the shipped configuration and [.py]. *)
Lemma X8_py_is_code :
  claimers CATEGORIES ".py" = ["Code"] ∧
  EXTENSION_TO_CATEGORY !! ".py" = Some "Code".
Proof.
  split; [reflexivity|].
  apply (X8_single_claimer_wins CATEGORIES ".py" "Code").
  - apply (bool_decide_unpack _). by vm_compute.
  - reflexivity.
Defined.

(** X9: the category of a name depends only on its extension, and not on
    the case of the extension: two names [pre.ext] and [pre'.ext'] whose
    extensions agree up to case get the same category. *)
Theorem X9_category_ignores_case (pre pre' ext ext' : string) :
  pre ≠ "" → pre' ≠ "" → ext ≠ "" → ext' ≠ "" →
  rfind "." ext = None → rfind "." ext' = None →
  lower ext = lower ext' →
  get_category_for_file (pre +:+ String "." ext) =
  get_category_for_file (pre' +:+ String "." ext').
Proof.
  intros Hpre Hpre' Hext Hext' Hdot Hdot' Hlow. unfold get_category_for_file.
  rewrite (suffix_inner_dot _ _ Hpre Hext Hdot).
  rewrite (suffix_inner_dot _ _ Hpre' Hext' Hdot').
  cbn [lower]. by rewrite Hlow.
Qed.

(** The theorem of X9 at two pictures. *)
Lemma X9_JPG_and_jpg :
  get_category_for_file "Holiday.JPG" = get_category_for_file "x.jpg" ∧
  get_category_for_file "x.jpg" = "Images".
Proof.
  split; [|by vm_compute].
  apply (X9_category_ignores_case "Holiday" "x" "JPG" "jpg"); done.
Defined.

(** X10: every name is classified into one of eight folders: ["Others"]
    or one of the seven declared categories. *)
Theorem X10_eight_folders (name : string) :
  get_category_for_file name ∈
    ["Others"; "Images"; "Videos"; "Documents"; "Audio"; "Archives";
     "Executables"; "Code"].
Proof. apply category_in_folder_names. Qed.

(** ** The command line *)


(** ** The task list *)

(** X12: whatever requests a fresh application has served, its tasks are
    numbered 1, 2, ..., n in the order they were added, and the next id is
    n + 1: no id is used twice and none is skipped. *)
Theorem X12_ids_count_from_one (rs : list request) :
  let s := serve rs in
  task_id <$> tasks s = seq 1 (length (tasks s)) ∧
  next_id s = S (length (tasks s)) ∧
  NoDup (task_id <$> tasks s).
Proof.
  assert (∀ s0, task_id <$> tasks s0 = seq 1 (length (tasks s0)) →
                next_id s0 = S (length (tasks s0)) →
                task_id <$> tasks (foldl handle s0 rs)
                  = seq 1 (length (tasks (foldl handle s0 rs))) ∧
                next_id (foldl handle s0 rs)
                  = S (length (tasks (foldl handle s0 rs)))) as Hgen.
  { induction rs as [|r rs IH]; intros s0 Hids Hnext; simpl; [done|].
    destruct (handle_numbered s0 r Hids Hnext) as [Hids' Hnext']. by apply IH. }
  intros s. subst s. unfold serve.
  destruct (Hgen initial eq_refl eq_refl) as [Hids Hnext].
  split_and!; [done | done |]. rewrite Hids. apply NoDup_seq.
Qed.

(** X13: [add_task] on globals whose ids are below [_next_id] returns an
    id no task has yet, appends the task, not completed, after the old
    ones, and keeps the ids below the new [_next_id]; completing the
    returned id right away finds the new task and marks it, and no other. *)
Theorem X13_add_then_complete (text : string) (s : store) :
  ids_below s →
  let new := {| task_id := next_id s; task_text := text;
                task_completed := false |} in
  (add_task text s).1 = next_id s ∧
  ((add_task text s).1 ∉ task_id <$> tasks s) ∧
  tasks (add_task text s).2 = tasks s ++ [new] ∧
  ids_below (add_task text s).2 ∧
  complete_task (add_task text s).1 (add_task text s).2 =
    (true, {| tasks := tasks s ++ [mark new]; next_id := next_id s + 1 |}).
Proof.
  intros Hbelow new.
  assert (next_id s ∉ task_id <$> tasks s) as Hfresh.
  { intros (t & Ht & Hin)%list_elem_of_fmap.
    pose proof (proj1 (Forall_forall _ _) Hbelow t Hin). simpl in *. lia. }
  split_and!; try done.
  - unfold ids_below. simpl. apply Forall_app. split.
    + eapply Forall_impl; [exact Hbelow|]. simpl. intros t Ht. lia.
    + apply Forall_singleton. simpl. lia.
  - unfold complete_task, add_task. cbn [fst snd tasks next_id]. fold new.
    by rewrite (complete_in_fresh (next_id s) (tasks s) new Hfresh eq_refl).
Qed.

(** The theorem of X13 at a store with one task. *)
Lemma X13_second_task :
  let s := {| tasks := [{| task_id := 1; task_text := "milk";
                           task_completed := true |}]; next_id := 2 |} in
  (add_task "eggs" s).1 = 2 ∧
  complete_task 2 (add_task "eggs" s).2 =
    (true, {| tasks := [{| task_id := 1; task_text := "milk";
                           task_completed := true |};
                        {| task_id := 2; task_text := "eggs";
                           task_completed := true |}];
              next_id := 3 |}).
Proof.
  intros s.
  destruct (X13_add_then_complete "eggs" s) as (H1 & _ & _ & _ & H5).
  - unfold ids_below. simpl. apply Forall_singleton. simpl. lia.
  - split; [exact H1 | exact H5].
Defined.

(** X14: [complete_task(id)] returns [True] exactly when some task has the
    id, and when it returns [False] the globals are as they were. *)
Theorem X14_complete_task_finds (id : nat) (s : store) :
  ((complete_task id s).1 = true ↔ id ∈ task_id <$> tasks s) ∧
  ((complete_task id s).1 = false → (complete_task id s).2 = s).
Proof.
  split.
  - rewrite complete_task_fst. apply complete_in_found.
  - rewrite complete_task_fst. intros Hf.
    pose proof (complete_in_missing id (tasks s) Hf) as Hsame.
    unfold complete_task. destruct (complete_in id (tasks s)) as [found ts].
    simpl in *. subst ts. by destruct s.
Qed.

(** X15: [complete_task] changes no id, no text, not the order or number
    of the tasks and not [_next_id]; a task that is completed stays
    completed; and completing the same id a second time changes nothing
    more. *)
Theorem X15_complete_task_changes_only_flags (id : nat) (s : store) :
  let s' := (complete_task id s).2 in
  task_id <$> tasks s' = task_id <$> tasks s ∧
  task_text <$> tasks s' = task_text <$> tasks s ∧
  next_id s' = next_id s ∧
  keeps (tasks s) (tasks s') ∧
  (complete_task id s').2 = s'.
Proof.
  intros s'. subst s'. rewrite complete_task_tasks, complete_task_next_id.
  split_and!.
  - apply complete_in_ids.
  - apply complete_in_texts.
  - done.
  - apply complete_in_keeps.
  - unfold complete_task at 1. rewrite complete_task_tasks, complete_task_next_id.
    pose proof (complete_in_twice id (tasks s)) as Htwice.
    destruct (complete_in id (complete_in id (tasks s)).2) as [found ts].
    simpl in *. subst ts.
    unfold complete_task. by destruct (complete_in id (tasks s)).
Qed.

(** X16: where no two tasks share an id, [complete_task(id)] marks the
    task with that id and leaves every other task as it is. *)
Theorem X16_complete_task_marks_that_task (id : nat) (s : store) :
  NoDup (task_id <$> tasks s) →
  tasks (complete_task id s).2 =
    (λ t, if (task_id t =? id)%nat then mark t else t) <$> tasks s.
Proof. intros Hnd. rewrite complete_task_tasks. by apply complete_in_unique. Qed.

(** The theorem of X16 at a store with three tasks. *)
Lemma X16_middle_task :
  let t1 := {| task_id := 1; task_text := "a"; task_completed := false |} in
  let t2 := {| task_id := 2; task_text := "b"; task_completed := false |} in
  let t3 := {| task_id := 3; task_text := "c"; task_completed := true |} in
  tasks (complete_task 2 {| tasks := [t1; t2; t3]; next_id := 4 |}).2 =
    (λ t, if (task_id t =? 2)%nat then mark t else t) <$> [t1; t2; t3].
Proof.
  intros t1 t2 t3.
  apply (X16_complete_task_marks_that_task 2 {| tasks := [t1; t2; t3]; next_id := 4 |}).
  apply (bool_decide_unpack _). by vm_compute.
Defined.

(** X17: whatever requests a fresh application has served, every stored
    text is not empty and has no white space left at either end. *)
Theorem X17_stored_texts_are_stripped (rs : list request) :
  Forall clean (tasks (serve rs)).
Proof.
  unfold serve.
  assert (∀ s0, Forall clean (tasks s0) → Forall clean (tasks (foldl handle s0 rs)))
    as Hgen.
  { induction rs as [|r rs IH]; intros s0 H0; simpl; [done|].
    apply IH. by apply handle_clean. }
  apply Hgen. constructor.
Qed.

(** X18: no request removes, renumbers, reorders or edits a task, and none
    takes a completion back: a task that is in the list after some requests
    is at the same place, with the same id and text, after any further
    requests, and completed if it was. *)
Theorem X18_tasks_are_never_lost (rs rs' : list request) :
  keeps (tasks (serve rs)) (tasks (serve (rs ++ rs'))).
Proof. rewrite serve_app. apply foldl_handle_keeps. Qed.
